(** * cdk-eks-karpenter: the [Karpenter] construct

    A shallow embedding of the class [Karpenter] (its constructor and
    [addProvisioner]) together with models of the two libraries the
    construct calls into:

    - the npm package [semver] ([semver.lt], which builds a [SemVer] from
      each operand and throws a [TypeError] when one does not parse);
    - the construct tree of [constructs] / [aws-cdk-lib]: every
      [new X(scope, id, ...)] adds a child named [id] to [scope] and throws
      when that name is taken.

    Both libraries are outside the repository; they are modelled as far as
    the construct uses them.  Of the CDK the model keeps the constructs in
    the order of their creation with the props they were given, the
    dependency edges the construct asks for and the role mappings of
    aws-auth.  A thrown exception ends the run: no app is given after it.

    What the model of the CDK leaves out:

    - the checks the CDK constructs run on their own props: a service
      account refuses a namespace that is no DNS label, and aws-auth
      refuses a role of another stack than the one of the cluster;
    - the constructs the CDK creates on its own behalf, such as the
      OpenID Connect provider of a cluster below its first service account
      and the construct that renders the aws-auth ConfigMap;
    - the dependency edges the CDK adds on its own behalf, from every
      manifest and chart to the barrier that waits for kubectl;
    - the labels the CDK adds to a manifest;
    - the names a scope holds by inheritance: the construct tree keeps the
      children in a JavaScript object, so that it also refuses an id such
      as 'toString'.

    So a run of the model that returns says that the construct tree had no
    objection to the ids; the CDK may still object to the props, and then
    throws before the run is over.

    JavaScript strings are modelled as [string]: one [ascii] per UTF-16
    code unit, which covers the code units below 256. *)

From Stdlib Require Import String Ascii List NArith ZArith Bool Lia.
Import ListNotations.
Local Open Scope string_scope.
Local Open Scope list_scope.

(** ** Exceptions and results *)

(** A node of the construct tree is named by the ids on the way from the
    root to it ([node.path] split at the separator). *)
Definition Path := list string.

Inductive Exception :=
| TypeError (message : string)
    (* thrown by [new SemVer(version)] *)
| EmptyIdError
    (* constructs: "Only root constructs may have an empty ID" *)
| DuplicateNameError (scope : Path) (name : string).
    (* constructs: "There is already a Construct with name '...' in ..." *)

Inductive Result (A : Type) :=
| Ok (value : A)
| Throw (e : Exception).
Arguments Ok {A} value.
Arguments Throw {A} e.

(** ** The [semver] package, strict mode (no [loose] option) *)

Module semver.

Definition MAX_LENGTH : nat := 256.
Definition MAX_SAFE_INTEGER : N := 9007199254740991.

Definition code (c : ascii) : N := N_of_ascii c.

(* [0-9] *)
Definition isDigit (c : ascii) : bool :=
  ((48 <=? code c) && (code c <=? 57))%N.

(* [a-zA-Z] *)
Definition isLetter (c : ascii) : bool :=
  (((65 <=? code c) && (code c <=? 90)) || ((97 <=? code c) && (code c <=? 122)))%N.

(* [a-zA-Z0-9-] *)
Definition isLetterDashNumber (c : ascii) : bool :=
  isDigit c || isLetter c || (code c =? 45)%N.

(* the code units below 256 that String.prototype.trim removes:
   TAB, LF, VT, FF, CR, SPACE, NBSP *)
Definition isWhiteSpace (c : ascii) : bool :=
  (((9 <=? code c) && (code c <=? 13)) || (code c =? 32) || (code c =? 160))%N.

Fixpoint trimStart (s : list ascii) : list ascii :=
  match s with
  | c :: s' => if isWhiteSpace c then trimStart s' else s
  | [] => []
  end.

Definition trim (s : list ascii) : list ascii :=
  rev (trimStart (rev (trimStart s))).

(* s.split(sep), for a separator of one character *)
Fixpoint split (sep : ascii) (s : list ascii) : list (list ascii) :=
  match s with
  | [] => [[]]
  | c :: s' =>
      if Ascii.eqb c sep then [] :: split sep s'
      else match split sep s' with
           | w :: ws => (c :: w) :: ws
           | [] => [[c]]
           end
  end.

(* the text before the first [sep], and the text after it when there is one *)
Fixpoint breakAt (sep : ascii) (s : list ascii) : list ascii * option (list ascii) :=
  match s with
  | [] => ([], None)
  | c :: s' =>
      if Ascii.eqb c sep then ([], Some s')
      else let (l, r) := breakAt sep s' in (c :: l, r)
  end.

(* NUMERICIDENTIFIER: 0|[1-9]\d* *)
Definition isNumericIdentifier (s : list ascii) : bool :=
  match s with
  | [] => false
  | c :: s' =>
      forallb isDigit s &&
      (negb (code c =? 48)%N || match s' with [] => true | _ :: _ => false end)
  end.

(* NONNUMERICIDENTIFIER: \d*[a-zA-Z-][a-zA-Z0-9-]* *)
Definition isNonNumericIdentifier (s : list ascii) : bool :=
  forallb isLetterDashNumber s && existsb (fun c => negb (isDigit c)) s.

(* PRERELEASEIDENTIFIER: (?:NUMERICIDENTIFIER|NONNUMERICIDENTIFIER) *)
Definition isPrereleaseIdentifier (s : list ascii) : bool :=
  isNumericIdentifier s || isNonNumericIdentifier s.

(* BUILDIDENTIFIER: [0-9A-Za-z-]+ *)
Definition isBuildIdentifier (s : list ascii) : bool :=
  match s with
  | [] => false
  | _ :: _ => forallb isLetterDashNumber s
  end.

(* /^[0-9]+$/ *)
Definition isNumeric (s : list ascii) : bool :=
  match s with
  | [] => false
  | _ :: _ => forallb isDigit s
  end.

(** The groups of a match of FULL, which is
      ^ v? MAINVERSION PRERELEASE? BUILD? $
    with MAINVERSION three NUMERICIDENTIFIERs separated by dots (groups
    1 to 3), PRERELEASE a '-' and PRERELEASEIDENTIFIERs separated by dots
    (group 4), and BUILD a '+' and BUILDIDENTIFIERs separated by dots
    (group 5).  The main version holds digits and dots only and no
    identifier holds a '+', so the build part starts at the first '+' and
    the prerelease part at the first '-' before it. *)
Record Groups := {
  m1 : list ascii;
  m2 : list ascii;
  m3 : list ascii;
  m4 : option (list ascii);
  m5 : option (list ascii)
}.

Definition optionForall {A} (p : A -> bool) (o : option A) : bool :=
  match o with
  | Some a => p a
  | None => true
  end.

Definition matchFull (s : list ascii) : option Groups :=
  let s := match s with
           | c :: s' => if Ascii.eqb c "v" then s' else s
           | [] => s
           end in
  let (s, build) := breakAt "+" s in
  let (main, pre) := breakAt "-" s in
  match split "." main with
  | [a; b; c] =>
      if isNumericIdentifier a && isNumericIdentifier b && isNumericIdentifier c
         && optionForall (fun p => forallb isPrereleaseIdentifier (split "." p)) pre
         && optionForall (fun p => forallb isBuildIdentifier (split "." p)) build
      then Some {| m1 := a; m2 := b; m3 := c; m4 := pre; m5 := build |}
      else None
  | _ => None
  end.

(** [+s] for a string of decimal digits: the integer it denotes, rounded to
    the nearest double (ties to even).  Every integer up to 2^53 is its own
    double. *)
Definition digitsValue (s : list ascii) : N :=
  fold_left (fun acc c => 10 * acc + (code c - 48))%N s 0%N.

Definition roundToDouble (n : N) : N :=
  let bits := N.size n in
  if (bits <=? 53)%N then n
  else
    let sh := (bits - 53)%N in
    let q := N.shiftr n sh in
    let r := N.land n (N.ones sh) in
    let half := N.shiftl 1 (sh - 1) in
    let q' := if (half <? r)%N || ((r =? half)%N && N.odd q) then (q + 1)%N else q in
    N.shiftl q' sh.

Definition toNumber (s : list ascii) : N := roundToDouble (digitsValue s).

(** A prerelease identifier is a number or a string. *)
Inductive Identifier :=
| IdNumber (n : N)
| IdString (s : list ascii).

Record SemVer := {
  major : N;
  minor : N;
  patch : N;
  prerelease : list Identifier;
  build : list (list ascii)
}.

Definition numberify (id : list ascii) : Identifier :=
  if isNumeric id then
    let num := toNumber id in
    if (num <? MAX_SAFE_INTEGER)%N then IdNumber num else IdString id
  else IdString id.

(** [new SemVer(version)] for a string [version]. *)
Definition SemVer_new (version : string) : Result SemVer :=
  if Nat.ltb MAX_LENGTH (String.length version) then
    Throw (TypeError "version is longer than 256 characters")
  else
    match matchFull (trim (list_ascii_of_string version)) with
    | None => Throw (TypeError ("Invalid Version: " ++ version))
    | Some m =>
        let major := toNumber (m1 m) in
        let minor := toNumber (m2 m) in
        let patch := toNumber (m3 m) in
        if (MAX_SAFE_INTEGER <? major)%N then Throw (TypeError "Invalid major version")
        else if (MAX_SAFE_INTEGER <? minor)%N then Throw (TypeError "Invalid minor version")
        else if (MAX_SAFE_INTEGER <? patch)%N then Throw (TypeError "Invalid patch version")
        else
          Ok {| major := major;
                minor := minor;
                patch := patch;
                prerelease := match m4 m with
                              | None => []
                              | Some p => map numberify (split "." p)
                              end;
                build := match m5 m with
                         | None => []
                         | Some b => split "." b
                         end |}
    end.

(* a < b on strings: lexicographic on the code units *)
Fixpoint stringLt (a b : list ascii) : bool :=
  match a, b with
  | _, [] => false
  | [], _ :: _ => true
  | x :: a', y :: b' =>
      if (code x <? code y)%N then true
      else if (code y <? code x)%N then false
      else stringLt a' b'
  end.

Fixpoint stringEq (a b : list ascii) : bool :=
  match a, b with
  | [], [] => true
  | x :: a', y :: b' => Ascii.eqb x y && stringEq a' b'
  | _, _ => false
  end.

(* a === b *)
Definition strictEq (a b : Identifier) : bool :=
  match a, b with
  | IdNumber x, IdNumber y => (x =? y)%N
  | IdString x, IdString y => stringEq x y
  | _, _ => false
  end.

(* /^[0-9]+$/.test(a) *)
Definition numeric (a : Identifier) : bool :=
  match a with
  | IdNumber _ => true
  | IdString s => isNumeric s
  end.

(* +a, for a numeric a *)
Definition unaryPlus (a : Identifier) : N :=
  match a with
  | IdNumber n => n
  | IdString s => toNumber s
  end.

Definition compareIdentifiers (a b : Identifier) : Z :=
  let anum := numeric a in
  let bnum := numeric b in
  if anum && bnum then
    let a := unaryPlus a in
    let b := unaryPlus b in
    if (a =? b)%N then 0%Z else if (a <? b)%N then (-1)%Z else 1%Z
  else if strictEq a b then 0%Z
  else if anum && negb bnum then (-1)%Z
  else if bnum && negb anum then 1%Z
  else match a, b with
       | IdString x, IdString y => if stringLt x y then (-1)%Z else 1%Z
       | _, _ => 1%Z
       end.

(* x || y on numbers *)
Definition orElse (x y : Z) : Z := if (x =? 0)%Z then y else x.

Definition compareMain (this other : SemVer) : Z :=
  orElse (compareIdentifiers (IdNumber (major this)) (IdNumber (major other)))
    (orElse (compareIdentifiers (IdNumber (minor this)) (IdNumber (minor other)))
       (compareIdentifiers (IdNumber (patch this)) (IdNumber (patch other)))).

(* the do-while loop of comparePre *)
Fixpoint comparePreLoop (a b : list Identifier) : Z :=
  match a, b with
  | [], [] => 0%Z
  | _ :: _, [] => 1%Z
  | [], _ :: _ => (-1)%Z
  | x :: a', y :: b' =>
      if strictEq x y then comparePreLoop a' b' else compareIdentifiers x y
  end.

Definition comparePre (this other : SemVer) : Z :=
  match prerelease this, prerelease other with
  | _ :: _, [] => (-1)%Z      (* NOT having a prerelease is > having one *)
  | [], _ :: _ => 1%Z
  | [], [] => 0%Z
  | a, b => comparePreLoop a b
  end.

(** [this.compare(other)].  The library first returns 0 when both format
    to the same version string; [compareMain || comparePre] gives 0 on
    such a pair as well. *)
Definition SemVer_compare (this other : SemVer) : Z :=
  orElse (compareMain this other) (comparePre this other).

(* compare(a, b) = new SemVer(a).compare(new SemVer(b)) *)
Definition compare (a b : string) : Result Z :=
  match SemVer_new a with
  | Throw e => Throw e
  | Ok this =>
      match SemVer_new b with
      | Throw e => Throw e
      | Ok other => Ok (SemVer_compare this other)
      end
  end.

(* lt(a, b) = compare(a, b) < 0 *)
Definition lt (a b : string) : Result bool :=
  match compare a b with
  | Throw e => Throw e
  | Ok c => Ok (c <? 0)%Z
  end.

End semver.

(** ** Values handed to the CDK *)

(** A role object: one created at a path of the tree, or the role a
    service account creates for itself ([serviceAccount.role]). *)
Inductive RoleRef :=
| RoleAt (path : Path)
| RoleOfServiceAccount (serviceAccount : Path).

(** Attributes the CDK resolves at deployment; in the program they are
    strings holding a token. *)
Inductive Token :=
| roleName (role : RoleRef)
| roleArn (role : RoleRef)
| ref (resource : Path)
| serviceAccountName (serviceAccount : Path)
| clusterName (cluster : Path)
| clusterEndpoint (cluster : Path)
| URL_SUFFIX.

(** A string built by the program: literal text and tokens, in order (a
    template literal gives one piece per part). *)
Inductive Piece :=
| Chars (s : string)
| Tok (t : Token).

Definition Str := list Piece.

Definition lit (s : string) : Str := [Chars s].

(** Object literals and [Record<string, any>] values. *)
#[local] Set Warnings "-register-all".
Inductive Json :=
| JNull
| JBool (b : bool)
| JNumber (n : Z)
| JString (s : Str)
| JArray (items : list Json)
| JObject (fields : list (string * Json)).

(* o[key] *)
Fixpoint lookupField (key : string) (fields : list (string * Json)) : option Json :=
  match fields with
  | [] => None
  | (k, v) :: rest => if String.eqb k key then Some v else lookupField key rest
  end.

Definition getField (key : string) (o : Json) : option Json :=
  match o with
  | JObject fields => lookupField key fields
  | _ => None
  end.

(* o[key] = v, on an object that may or may not have the key *)
Fixpoint assignField (key : string) (v : Json) (fields : list (string * Json))
  : list (string * Json) :=
  match fields with
  | [] => [(key, v)]
  | (k, w) :: rest =>
      if String.eqb k key then (k, v) :: rest
      else (k, w) :: assignField key v rest
  end.

Definition setField (key : string) (v : Json) (o : Json) : Json :=
  match o with
  | JObject fields => JObject (assignField key v fields)
  | _ => o
  end.

Module RoleProps.
Record t := {
  assumedBy : Str;                 (* new ServicePrincipal(service) *)
  managedPolicies : list string    (* ManagedPolicy.fromAwsManagedPolicyName(name) *)
}.
End RoleProps.

Module CfnInstanceProfileProps.
Record t := {
  roles : list Str;
  instanceProfileName : Str
}.
End CfnInstanceProfileProps.

Module PolicyStatement.
Record t := {
  actions : list string;
  resources : list Str
}.
End PolicyStatement.

Module PolicyProps.
Record t := {
  roles : list RoleRef;
  statements : list PolicyStatement.t
}.
End PolicyProps.

Module AwsAuthMapping.
Record t := {
  username : string;
  groups : list string
}.
End AwsAuthMapping.

Module ServiceAccountOptions.
Record t := {
  namespace : option string
}.
End ServiceAccountOptions.

Module HelmChartOptions.
Record t := {
  wait : option bool;
  chart : option string;
  release : option string;
  repository : option string;
  namespace : option string;
  version : option string;
  createNamespace : option bool;
  values : option Json
}.
End HelmChartOptions.

(** ** The construct tree *)

Inductive Resource :=
| Other (type : string)      (* a construct declared by other code: a Stack, a Cluster *)
| KarpenterConstruct
| Role (props : RoleProps.t)
| CfnInstanceProfile (props : CfnInstanceProfileProps.t)
| Policy (props : PolicyProps.t)
| KubernetesManifest (cluster : Path) (manifest : list Json)
| ServiceAccount (cluster : Path) (options : ServiceAccountOptions.t)
| HelmChart (cluster : Path) (options : HelmChartOptions.t).

(** What an app has declared so far: the constructs in the order of their
    creation, the dependency edges (dependent first), and the role mappings
    of the aws-auth ConfigMap of each cluster. *)
Record App := {
  constructs : list (Path * Resource);
  dependencies : list (Path * Path);
  awsAuth : list (Path * RoleRef * AwsAuthMapping.t)
}.

(** Code that declares resources and may throw. *)
Definition M (A : Type) : Type := App -> Result (A * App).

Definition ret {A} (a : A) : M A := fun app => Ok (a, app).

Definition bind {A B} (m : M A) (f : A -> M B) : M B :=
  fun app =>
    match m app with
    | Ok (a, app') => f a app'
    | Throw e => Throw e
    end.

Definition liftResult {A} (r : Result A) : M A :=
  fun app =>
    match r with
    | Ok a => Ok (a, app)
    | Throw e => Throw e
    end.

Notation "x <- c1 ;; c2" := (bind c1 (fun x => c2))
  (at level 61, c1 at next level, right associativity).
Notation "c1 ;; c2" := (bind c1 (fun _ => c2))
  (at level 61, right associativity).

Fixpoint pathEqb (p q : Path) : bool :=
  match p, q with
  | [], [] => true
  | a :: p', b :: q' => String.eqb a b && pathEqb p' q'
  | _, _ => false
  end.

(* node.tryFindChild, by path *)
Fixpoint findConstruct (p : Path) (cs : list (Path * Resource)) : option Resource :=
  match cs with
  | [] => None
  | (q, r) :: rest => if pathEqb q p then Some r else findConstruct p rest
  end.

(* constructs: id.replace(/\//g, '--') *)
Fixpoint sanitizeId (id : string) : string :=
  match id with
  | EmptyString => EmptyString
  | String c rest =>
      if Ascii.eqb c "/" then String "-" (String "-" (sanitizeId rest))
      else String c (sanitizeId rest)
  end.

(** [new X(scope, id, ...)]: the [Node] constructor refuses an empty id,
    then [addChild] refuses a name the scope already has. *)
Definition Construct_new (scope : Path) (id : string) (r : Resource) : M Path :=
  fun app =>
    let name := sanitizeId id in
    if String.eqb name "" then Throw EmptyIdError
    else
      let p := scope ++ [name] in
      match findConstruct p (constructs app) with
      | Some _ => Throw (DuplicateNameError scope name)
      | None =>
          Ok (p, {| constructs := constructs app ++ [(p, r)];
                    dependencies := dependencies app;
                    awsAuth := awsAuth app |})
      end.

(* dependent.node.addDependency(dependency) *)
Definition addDependency (dependent dependency : Path) : M unit :=
  fun app =>
    Ok (tt, {| constructs := constructs app;
               dependencies := dependencies app ++ [(dependent, dependency)];
               awsAuth := awsAuth app |}).

(** The methods of an EKS [Cluster] the construct uses; a cluster is
    referred to by its path. *)
Module Cluster.

(* new KubernetesManifest(this, `manifest-${id}`, { cluster: this, manifest }) *)
Definition addManifest (this : Path) (id : string) (manifest : list Json) : M Path :=
  Construct_new this ("manifest-" ++ id) (KubernetesManifest this manifest).

(* new HelmChart(this, `chart-${id}`, { cluster: this, ...options }) *)
Definition addHelmChart (this : Path) (id : string) (options : HelmChartOptions.t) : M Path :=
  Construct_new this ("chart-" ++ id) (HelmChart this options).

(* new ServiceAccount(this, id, { ...options, cluster: this }) *)
Definition addServiceAccount (this : Path) (id : string) (options : ServiceAccountOptions.t)
  : M Path :=
  Construct_new this id (ServiceAccount this options).

(* this.awsAuth.addRoleMapping(role, mapping) *)
Definition awsAuth_addRoleMapping (this : Path) (role : RoleRef) (mapping : AwsAuthMapping.t)
  : M unit :=
  fun app =>
    Ok (tt, {| constructs := constructs app;
               dependencies := dependencies app;
               awsAuth := awsAuth app ++ [(this, role, mapping)] |}).

End Cluster.

(** The imported module [semver], as far as the construct uses it. *)
Class Semver := {
  semver_lt : string -> string -> Result bool
}.

#[export] Instance node_semver : Semver := {| semver_lt := semver.lt |}.

(** ** The construct *)

Module KarpenterProps.
Record t := {
  cluster : Path;
  namespace : option string;
  version : option string;
  helmRepository : option string
}.
End KarpenterProps.

(* a ?? b *)
Definition nullish {A} (a : option A) (b : A) : A :=
  match a with
  | Some x => x
  | None => b
  end.

Module Karpenter.

Record t := {
  node : Path;
  cluster : Path;
  namespace : string;
  version : option string;
  helmRepository : option string;
  nodeRole : Path;
  chart : Path
}.

(** The object literals of the constructor, in the order of the source. *)

(* props of [new Role(this, 'NodeRole', ...)] *)
Definition nodeRoleProps : RoleProps.t :=
  {| RoleProps.assumedBy := [Chars "ec2."; Tok URL_SUFFIX];
     RoleProps.managedPolicies :=
       [ "AmazonEKS_CNI_Policy";
         "AmazonEKSWorkerNodePolicy";
         "AmazonEC2ContainerRegistryReadOnly";
         "AmazonSSMManagedInstanceCore" ] |}.

(* props of [new CfnInstanceProfile(this, 'InstanceProfile', ...)] *)
Definition instanceProfileProps (cluster : Path) (id : string) (nodeRole : Path)
  : CfnInstanceProfileProps.t :=
  {| CfnInstanceProfileProps.roles := [[Tok (roleName (RoleAt nodeRole))]];
     CfnInstanceProfileProps.instanceProfileName :=
       [Tok (clusterName cluster); Chars "-"; Chars id] |}.

(* the mapping given to [this.cluster.awsAuth.addRoleMapping] *)
Definition nodeRoleMapping : AwsAuthMapping.t :=
  {| AwsAuthMapping.username := "system:node:{{EC2PrivateDNSName}}";
     AwsAuthMapping.groups := ["system:bootstrappers"; "system:nodes"] |}.

(* the manifest given to [this.cluster.addManifest('namespace', ...)] *)
Definition namespaceManifest (namespace : string) : Json :=
  JObject [ ("apiVersion", JString (lit "v1"));
            ("kind", JString (lit "Namespace"));
            ("metadata", JObject [("name", JString (lit namespace))]) ].

Definition controllerActions : list string :=
  [ "ec2:CreateFleet";
    "ec2:CreateLaunchTemplate";
    "ec2:CreateTags";
    "ec2:DeleteLaunchTemplate";
    "ec2:RunInstances";
    "ec2:TerminateInstances";
    "ec2:DescribeAvailabilityZones";
    "ec2:DescribeImages";
    "ec2:DescribeInstances";
    "ec2:DescribeInstanceTypeOfferings";
    "ec2:DescribeInstanceTypes";
    "ec2:DescribeLaunchTemplates";
    "ec2:DescribeSecurityGroups";
    "ec2:DescribeSpotPriceHistory";
    "ec2:DescribeSubnets";
    "pricing:GetProducts";
    "ssm:GetParameter" ].

(* props of [new Policy(this, 'ControllerPolicy', ...)] *)
Definition controllerPolicyProps (nodeRole serviceAccount : Path) : PolicyProps.t :=
  {| PolicyProps.roles := [RoleOfServiceAccount serviceAccount];
     PolicyProps.statements :=
       [ {| PolicyStatement.actions := controllerActions;
            PolicyStatement.resources := [lit "*"] |};
         {| PolicyStatement.actions := ["iam:PassRole"];
            PolicyStatement.resources := [[Tok (roleArn (RoleAt nodeRole))]] |} ] |}.

(* the options given to [this.cluster.addHelmChart('karpenter', ...)] *)
Definition chartOptions (cluster : Path) (namespace : string) (version : option string)
    (helmRepository : string) (serviceAccount instanceProfile : Path)
  : HelmChartOptions.t :=
  {| HelmChartOptions.wait := Some true;
     HelmChartOptions.chart := Some "karpenter";
     HelmChartOptions.release := Some "karpenter";
     HelmChartOptions.repository := Some helmRepository;
     HelmChartOptions.namespace := Some namespace;
     HelmChartOptions.version :=
       match version with Some v => Some v | None => None end;  (* this.version ?? undefined *)
     HelmChartOptions.createNamespace := Some false;
     HelmChartOptions.values := Some
       (JObject
          [ ("serviceAccount",
             JObject
               [ ("create", JBool false);
                 ("name", JString [Tok (serviceAccountName serviceAccount)]);
                 ("annotations",
                  JObject
                    [ ("eks.amazonaws.com/role-arn",
                       JString [Tok (roleArn (RoleOfServiceAccount serviceAccount))]) ]) ]);
            ("clusterName", JString [Tok (clusterName cluster)]);
            ("clusterEndpoint", JString [Tok (clusterEndpoint cluster)]);
            ("aws",
             JObject [("defaultInstanceProfile", JString [Tok (ref instanceProfile)])]) ]) |}.

Section WithSemver.
Context {semverModule : Semver}.

(** The block "set helmRepository" of the constructor. *)
Definition setHelmRepository (helmRepository version : option string) : Result string :=
  match helmRepository with
  | Some r => Ok r
  | None =>
      (* If the Karpenter release is <v0.17.0, use the old chart repo *)
      match
        match version with
        | Some v => semver_lt v "0.17.0"
        | None => Ok false          (* [&&] stops at the first operand *)
        end
      with
      | Throw e => Throw e
      | Ok true => Ok "https://charts.karpenter.sh"
      | Ok false => Ok "oci://public.ecr.aws/karpenter"
      end
  end.

Definition constructor (scope : Path) (id : string) (props : KarpenterProps.t) : M t :=
  this <- Construct_new scope id KarpenterConstruct ;;           (* super(scope, id) *)
  let cluster := KarpenterProps.cluster props in
  let namespace := nullish (KarpenterProps.namespace props) "karpenter" in
  let version := KarpenterProps.version props in
  helmRepository <-
    liftResult (setHelmRepository (KarpenterProps.helmRepository props) version) ;;
  nodeRole <- Construct_new this "NodeRole" (Role nodeRoleProps) ;;
  instanceProfile <- Construct_new this "InstanceProfile"
    (CfnInstanceProfile (instanceProfileProps cluster id nodeRole)) ;;
  Cluster.awsAuth_addRoleMapping cluster (RoleAt nodeRole) nodeRoleMapping ;;
  namespaceManifest <- Cluster.addManifest cluster "namespace" [namespaceManifest namespace] ;;
  serviceAccount <- Cluster.addServiceAccount cluster "karpenter"
    {| ServiceAccountOptions.namespace := Some namespace |} ;;
  addDependency serviceAccount namespaceManifest ;;
  Construct_new this "ControllerPolicy"
    (Policy (controllerPolicyProps nodeRole serviceAccount)) ;;
  chart <- Cluster.addHelmChart cluster "karpenter"
    (chartOptions cluster namespace version helmRepository serviceAccount instanceProfile) ;;
  addDependency chart namespaceManifest ;;
  ret {| node := this;
         cluster := cluster;
         namespace := namespace;
         version := version;
         helmRepository := Some helmRepository;
         nodeRole := nodeRole;
         chart := chart |}.

End WithSemver.

Definition addProvisioner (this : t) (id : string) (provisionerSpec : Json) : M unit :=
  let m := JObject [ ("apiVersion", JString (lit "karpenter.sh/v1alpha5"));
                     ("kind", JString (lit "Provisioner"));
                     ("metadata", JObject [ ("name", JString (lit id));
                                            ("namespace", JString (lit (namespace this))) ]);
                     ("spec", JObject []) ] in
  let m := setField "spec" provisionerSpec m in
  provisioner <- Cluster.addManifest (cluster this) id [m] ;;
  addDependency provisioner (chart this).

End Karpenter.

(** ** Notions the statements below use *)

(** A caller that adds provisioners one after the other. *)
Fixpoint addProvisioners (this : Karpenter.t) (calls : list (string * Json)) : M unit :=
  match calls with
  | [] => ret tt
  | (id, provisionerSpec) :: rest =>
      Karpenter.addProvisioner this id provisionerSpec ;;
      addProvisioners this rest
  end.

Definition declare (p : Path) (r : Resource) (app : App) : App :=
  {| constructs := constructs app ++ [(p, r)];
     dependencies := dependencies app;
     awsAuth := awsAuth app |}.

Definition isFree (p : Path) (app : App) : bool :=
  match findConstruct p (constructs app) with
  | None => true
  | Some _ => false
  end.

(** The construct tree accepts every construct the constructor creates:
    the id is not empty, no construct sits at one of the seven paths, and
    the construct itself does not land on one of the three names it takes
    in the cluster. *)
Definition idsAvailable (scope : Path) (id : string) (cluster : Path) (app : App) : bool :=
  let this := scope ++ [sanitizeId id] in
  negb (String.eqb (sanitizeId id) "")
  && forallb (fun p => isFree p app)
       [ this;
         this ++ ["NodeRole"];
         this ++ ["InstanceProfile"];
         cluster ++ ["manifest-namespace"];
         cluster ++ ["karpenter"];
         this ++ ["ControllerPolicy"];
         cluster ++ ["chart-karpenter"] ]
  && forallb (fun p => negb (pathEqb this p))
       [ cluster ++ ["manifest-namespace"];
         cluster ++ ["karpenter"];
         cluster ++ ["chart-karpenter"] ].

(** The object a completed construction returns, and the app it leaves. *)
Definition constructed (scope : Path) (id : string) (props : KarpenterProps.t)
    (helmRepository : string) : Karpenter.t :=
  let this := scope ++ [sanitizeId id] in
  {| Karpenter.node := this;
     Karpenter.cluster := KarpenterProps.cluster props;
     Karpenter.namespace := nullish (KarpenterProps.namespace props) "karpenter";
     Karpenter.version := KarpenterProps.version props;
     Karpenter.helmRepository := Some helmRepository;
     Karpenter.nodeRole := this ++ ["NodeRole"];
     Karpenter.chart := KarpenterProps.cluster props ++ ["chart-karpenter"] |}.

Definition declaredConstructs (scope : Path) (id : string) (props : KarpenterProps.t)
    (helmRepository : string) : list (Path * Resource) :=
  let this := scope ++ [sanitizeId id] in
  let cluster := KarpenterProps.cluster props in
  let namespace := nullish (KarpenterProps.namespace props) "karpenter" in
  let nodeRole := this ++ ["NodeRole"] in
  let instanceProfile := this ++ ["InstanceProfile"] in
  let serviceAccount := cluster ++ ["karpenter"] in
  [ (this, KarpenterConstruct);
    (nodeRole, Role Karpenter.nodeRoleProps);
    (instanceProfile,
     CfnInstanceProfile (Karpenter.instanceProfileProps cluster id nodeRole));
    (cluster ++ ["manifest-namespace"],
     KubernetesManifest cluster [Karpenter.namespaceManifest namespace]);
    (serviceAccount,
     ServiceAccount cluster {| ServiceAccountOptions.namespace := Some namespace |});
    (this ++ ["ControllerPolicy"],
     Policy (Karpenter.controllerPolicyProps nodeRole serviceAccount));
    (cluster ++ ["chart-karpenter"],
     HelmChart cluster
       (Karpenter.chartOptions cluster namespace (KarpenterProps.version props)
          helmRepository serviceAccount instanceProfile)) ].

Definition afterConstruction (scope : Path) (id : string) (props : KarpenterProps.t)
    (helmRepository : string) (app : App) : App :=
  let cluster := KarpenterProps.cluster props in
  {| constructs := constructs app ++ declaredConstructs scope id props helmRepository;
     dependencies :=
       dependencies app ++
       [ (cluster ++ ["karpenter"], cluster ++ ["manifest-namespace"]);
         (cluster ++ ["chart-karpenter"], cluster ++ ["manifest-namespace"]) ];
     awsAuth :=
       awsAuth app ++
       [ (cluster, RoleAt ((scope ++ [sanitizeId id]) ++ ["NodeRole"]),
          Karpenter.nodeRoleMapping) ] |}.

(** The manifest [addProvisioner] hands to the cluster. *)
Definition provisionerManifest (id namespace : string) (provisionerSpec : Json) : Json :=
  JObject [ ("apiVersion", JString (lit "karpenter.sh/v1alpha5"));
            ("kind", JString (lit "Provisioner"));
            ("metadata", JObject [ ("name", JString (lit id));
                                   ("namespace", JString (lit namespace)) ]);
            ("spec", provisionerSpec) ].

(** Where [addProvisioner] puts the manifest, and the app it leaves. *)
Definition provisionerPath (k : Karpenter.t) (id : string) : Path :=
  Karpenter.cluster k ++ [("manifest-" ++ sanitizeId id)%string].

Definition afterProvisioner (k : Karpenter.t) (id : string) (spec : Json) (app : App) : App :=
  {| constructs :=
       constructs app ++
       [ (provisionerPath k id,
          KubernetesManifest (Karpenter.cluster k)
            [provisionerManifest id (Karpenter.namespace k) spec]) ];
     dependencies := dependencies app ++ [(provisionerPath k id, Karpenter.chart k)];
     awsAuth := awsAuth app |}.

(** The constructs and the dependency edges a run of [addProvisioners]
    adds. *)
Definition provisionerConstructs (k : Karpenter.t) (calls : list (string * Json))
  : list (Path * Resource) :=
  map (fun c => (provisionerPath k (fst c),
                 KubernetesManifest (Karpenter.cluster k)
                   [provisionerManifest (fst c) (Karpenter.namespace k) (snd c)]))
      calls.

Definition provisionerDependencies (k : Karpenter.t) (calls : list (string * Json))
  : list (Path * Path) :=
  map (fun c => (provisionerPath k (fst c), Karpenter.chart k)) calls.

(** Semantic Versioning precedence of a parsed version against the release
    [M.m.p]: a lower major, minor or patch number, or the same three
    numbers with a prerelease tag. *)
Definition precedesRelease (v : semver.SemVer) (M m p : N) : Prop :=
  (semver.major v < M)%N
  \/ (semver.major v = M /\ (semver.minor v < m)%N)
  \/ (semver.major v = M /\ semver.minor v = m /\ (semver.patch v < p)%N)
  \/ (semver.major v = M /\ semver.minor v = m /\ semver.patch v = p
      /\ semver.prerelease v <> []).

(** The Kubernetes resources declared for one cluster, and the role
    mappings of its aws-auth ConfigMap. *)
Definition targetCluster (r : Resource) : option Path :=
  match r with
  | KubernetesManifest cluster _ => Some cluster
  | ServiceAccount cluster _ => Some cluster
  | HelmChart cluster _ => Some cluster
  | _ => None
  end.

Definition targets (cluster : Path) (r : Resource) : bool :=
  match targetCluster r with
  | Some c => pathEqb c cluster
  | None => false
  end.

Definition kubernetesResourcesOf (cluster : Path) (app : App) : list (Path * Resource) :=
  filter (fun pr => targets cluster (snd pr)) (constructs app).

Definition roleMappingsOf (cluster : Path) (app : App)
  : list (Path * RoleRef * AwsAuthMapping.t) :=
  filter (fun m => pathEqb (fst (fst m)) cluster) (awsAuth app).

(** A semver module whose [lt] throws on every call. *)
Definition throwingSemver : Semver :=
  {| semver_lt := fun _ _ => Throw (TypeError "semver.lt was called") |}.

(** The app and the props of the test suite: a stack holding a cluster. *)
Definition testCluster : Path := ["test-stack"; "testcluster"].

Definition testApp : App :=
  {| constructs := [ (["test-stack"], Other "Stack"); (testCluster, Other "Cluster") ];
     dependencies := [];
     awsAuth := [] |}.

Definition testProps (namespace version helmRepository : option string) : KarpenterProps.t :=
  {| KarpenterProps.cluster := testCluster;
     KarpenterProps.namespace := namespace;
     KarpenterProps.version := version;
     KarpenterProps.helmRepository := helmRepository |}.

Definition testScope : Path := ["test-stack"].

(* new Karpenter(stack, 'Karpenter', { cluster, ... }) *)
Definition testKarpenter (namespace version helmRepository : option string)
  : Result (Karpenter.t * App) :=
  Karpenter.constructor (semverModule := node_semver) testScope "Karpenter"
    (testProps namespace version helmRepository) testApp.

(* what [testKarpenter None None None] returns *)
Definition defaultKarpenter : Karpenter.t :=
  constructed testScope "Karpenter" (testProps None None None)
    "oci://public.ecr.aws/karpenter".

Definition defaultApp : App :=
  afterConstruction testScope "Karpenter" (testProps None None None)
    "oci://public.ecr.aws/karpenter" testApp.

(* the options of the Helm chart a run has declared *)
Definition chartOf (run : Result (Karpenter.t * App)) : option HelmChartOptions.t :=
  match run with
  | Ok (k, app) =>
      match findConstruct (Karpenter.chart k) (constructs app) with
      | Some (HelmChart _ options) => Some options
      | _ => None
      end
  | Throw _ => None
  end.

(** The names the constructor takes among the children of the cluster. *)
Definition clusterNames : list string :=
  ["manifest-namespace"; "karpenter"; "chart-karpenter"].

(** ** Version texts *)

(** The strings [new SemVer(version)] accepts, written as the grammar of
    Semantic Versioning rather than as the parser reads them: white space,
    an optional letter v, three numerals separated by dots, then the
    prerelease tags after a dash and the build tags after a plus sign,
    each list separated by dots, and white space again. *)

Definition oneOf (chars : string) (c : ascii) : bool :=
  existsb (Ascii.eqb c) (list_ascii_of_string chars).

Definition decimalDigits : string := "0123456789".

Definition identifierCharacters : string :=
  "0123456789abcdefghijklmnopqrstuvwxyzABCDEFGHIJKLMNOPQRSTUVWXYZ-".

(* the code units below 256 that String.prototype.trim removes:
   tab, line feed, vertical tab, form feed, carriage return, space and
   the no-break space *)
Definition spaceCharacters : list ascii :=
  map ascii_of_nat [9; 10; 11; 12; 13; 32; 160].

Definition isSpace (c : ascii) : bool := existsb (Ascii.eqb c) spaceCharacters.

Definition digitValue (c : ascii) : N := (N_of_ascii c - 48)%N.

Fixpoint valueOfReversed (r : list ascii) : N :=
  match r with
  | [] => 0%N
  | c :: r' => (digitValue c + 10 * valueOfReversed r')%N
  end.

(** The number a decimal numeral denotes. *)
Definition numeralValue (s : list ascii) : N := valueOfReversed (rev s).

(** A numeral: digits, without a leading zero unless it is the digit 0. *)
Definition isNumeral (s : list ascii) : bool :=
  match s with
  | [] => false
  | c :: rest =>
      forallb (oneOf decimalDigits) s
      && (negb (Ascii.eqb c "0") || Nat.eqb (length rest) 0)
  end.

(** A prerelease tag: letters, digits and dashes; when it has digits only
    it is a numeral. *)
Definition isPrereleaseTag (s : list ascii) : bool :=
  match s with
  | [] => false
  | _ :: _ =>
      forallb (oneOf identifierCharacters) s
      && (negb (forallb (oneOf decimalDigits) s) || isNumeral s)
  end.

(** A build tag: letters, digits and dashes. *)
Definition isBuildTag (s : list ascii) : bool :=
  match s with
  | [] => false
  | _ :: _ => forallb (oneOf identifierCharacters) s
  end.

Fixpoint joinDots (parts : list (list ascii)) : list ascii :=
  match parts with
  | [] => []
  | [a] => a
  | a :: rest => a ++ "."%char :: joinDots rest
  end.

(** The parts of a version text. *)
Record VersionText := {
  leadingSpace : list ascii;
  letterV : bool;
  majorText : list ascii;
  minorText : list ascii;
  patchText : list ascii;
  prereleaseTags : list (list ascii);
  buildTags : list (list ascii);
  trailingSpace : list ascii
}.

Definition coreText (t : VersionText) : list ascii :=
  majorText t ++ "."%char :: minorText t ++ "."%char :: patchText t.

Definition prereleaseText (t : VersionText) : list ascii :=
  match prereleaseTags t with
  | [] => []
  | tags => "-"%char :: joinDots tags
  end.

Definition buildText (t : VersionText) : list ascii :=
  match buildTags t with
  | [] => []
  | tags => "+"%char :: joinDots tags
  end.

Definition bodyText (t : VersionText) : list ascii :=
  (if letterV t then ["v"%char] else [])
  ++ coreText t ++ prereleaseText t ++ buildText t.

(** The characters of the string the parts make up. *)
Definition text (t : VersionText) : list ascii :=
  leadingSpace t ++ bodyText t ++ trailingSpace t.

(** The parts are those of a version: the three numbers are numerals no
    greater than the largest safe integer, every tag is one, and the
    whole string has at most 256 characters. *)
Definition wellFormed (t : VersionText) : bool :=
  forallb isSpace (leadingSpace t)
  && forallb isSpace (trailingSpace t)
  && isNumeral (majorText t) && isNumeral (minorText t) && isNumeral (patchText t)
  && (numeralValue (majorText t) <=? 9007199254740991)%N
  && (numeralValue (minorText t) <=? 9007199254740991)%N
  && (numeralValue (patchText t) <=? 9007199254740991)%N
  && forallb isPrereleaseTag (prereleaseTags t)
  && forallb isBuildTag (buildTags t)
  && Nat.leb (length (text t)) 256.

(** The string [v] is the text of a version. *)
Definition isVersionText (v : string) : Prop :=
  exists t, wellFormed t = true /\ list_ascii_of_string v = text t.

(** A version text is strictly below the release [M.m.p]: its three
    numbers come first in the order by major, then minor, then patch
    number, or they are [M], [m] and [p] and the text has a prerelease
    tag.  Build tags play no part. *)
Definition belowRelease (t : VersionText) (M m p : N) : bool :=
  let major := numeralValue (majorText t) in
  let minor := numeralValue (minorText t) in
  let patch := numeralValue (patchText t) in
  ((major <? M)
   || ((major =? M)
       && ((minor <? m)
           || ((minor =? m)
               && ((patch <? p)
                   || ((patch =? p)
                       && match prereleaseTags t with
                          | [] => false
                          | _ :: _ => true
                          end))))))%N.

(** The object [new SemVer] builds from a version text. *)
Definition parsed (t : VersionText) : semver.SemVer :=
  {| semver.major := numeralValue (majorText t);
     semver.minor := numeralValue (minorText t);
     semver.patch := numeralValue (patchText t);
     semver.prerelease := map semver.numberify (prereleaseTags t);
     semver.build := buildTags t |}.

(** The groups the pattern of [semver] captures in the body of a version
    text, and the characters that occur in its parts. *)
Definition groupsOf (t : VersionText) : semver.Groups :=
  {| semver.m1 := majorText t;
     semver.m2 := minorText t;
     semver.m3 := patchText t;
     semver.m4 := match prereleaseTags t with [] => None | tags => Some (joinDots tags) end;
     semver.m5 := match buildTags t with [] => None | tags => Some (joinDots tags) end |}.

Definition numberCharacters : string := "0123456789.".

Definition dottedCharacters : string :=
  "0123456789abcdefghijklmnopqrstuvwxyzABCDEFGHIJKLMNOPQRSTUVWXYZ-.".

Definition bodyCharacters : string :=
  "0123456789abcdefghijklmnopqrstuvwxyzABCDEFGHIJKLMNOPQRSTUVWXYZ-.+".

(** ** Outcomes of two constructions *)

(** The props with another version. *)
Definition withVersion (props : KarpenterProps.t) (version : option string)
  : KarpenterProps.t :=
  {| KarpenterProps.cluster := KarpenterProps.cluster props;
     KarpenterProps.namespace := KarpenterProps.namespace props;
     KarpenterProps.version := version;
     KarpenterProps.helmRepository := KarpenterProps.helmRepository props |}.

(** The props with a repository. *)
Definition withHelmRepository (props : KarpenterProps.t) (helmRepository : string)
  : KarpenterProps.t :=
  {| KarpenterProps.cluster := KarpenterProps.cluster props;
     KarpenterProps.namespace := KarpenterProps.namespace props;
     KarpenterProps.version := KarpenterProps.version props;
     KarpenterProps.helmRepository := Some helmRepository |}.

(** The constructor has no reason of its own to reject the version: a
    repository is given, or no version is, or the version is the text of
    one. *)
Definition versionAccepted (helmRepository version : option string) : Prop :=
  helmRepository <> None
  \/ version = None
  \/ exists v, version = Some v /\ isVersionText v.

(** Two runs end alike: both return, or both throw the same exception. *)
Definition sameOutcome {A B} (run : Result A) (run' : Result B) : Prop :=
  match run, run' with
  | Ok _, Ok _ => True
  | Throw e, Throw e' => e = e'
  | _, _ => False
  end.

(** ** Values of the runs at concrete inputs *)

(** The parts of the version 'v0.17.0'. *)
Definition v0_17_0 : VersionText :=
  {| leadingSpace := [];
     letterV := true;
     majorText := ["0"%char];
     minorText := ["1"%char; "7"%char];
     patchText := ["0"%char];
     prereleaseTags := [];
     buildTags := [];
     trailingSpace := [] |}.

(** An app of two stacks, each holding a cluster. *)
Definition otherScope : Path := ["other-stack"].

Definition otherCluster : Path := ["other-stack"; "othercluster"].

Definition twoStackApp : App :=
  {| constructs := [ (["test-stack"], Other "Stack");
                     (testCluster, Other "Cluster");
                     (otherScope, Other "Stack");
                     (otherCluster, Other "Cluster") ];
     dependencies := [];
     awsAuth := [] |}.

(** ** The construct tree: lookups *)

Lemma pathEqb_eq (p q : Path) : pathEqb p q = true <-> p = q.
Proof.
  revert q. induction p as [|a p IH]; intros [|b q]; simpl; split; try congruence.
  - intros H. apply andb_true_iff in H. destruct H as [Hab Hpq].
    apply String.eqb_eq in Hab. apply IH in Hpq. congruence.
  - intros H. injection H as -> ->. rewrite String.eqb_refl. simpl. now apply IH.
Qed.

Lemma pathEqb_refl (p : Path) : pathEqb p p = true.
Proof. now apply pathEqb_eq. Qed.

Lemma pathEqb_neq (p q : Path) : p <> q -> pathEqb p q = false.
Proof.
  intros H. destruct (pathEqb p q) eqn:E; [|reflexivity].
  apply pathEqb_eq in E. contradiction.
Qed.

Lemma pathEqb_false (p q : Path) : pathEqb p q = false -> p <> q.
Proof. intros H E. apply pathEqb_eq in E. congruence. Qed.

Lemma snoc_neq_self (p : Path) (x : string) : p ++ [x] <> p.
Proof.
  intros H. apply (f_equal (@length string)) in H.
  rewrite length_app in H. simpl in H. lia.
Qed.

Lemma snoc_neq_last (p q : Path) (x y : string) : x <> y -> p ++ [x] <> q ++ [y].
Proof. intros Hxy H. apply app_inj_tail in H. destruct H. contradiction. Qed.

Lemma findConstruct_app (p : Path) (cs cs' : list (Path * Resource)) :
  findConstruct p (cs ++ cs') =
  match findConstruct p cs with
  | Some r => Some r
  | None => findConstruct p cs'
  end.
Proof.
  induction cs as [|[q r] cs IH]; simpl; [reflexivity|].
  destruct (pathEqb q p); [reflexivity | exact IH].
Qed.

Lemma findConstruct_app_Some (p : Path) (r : Resource) (cs cs' : list (Path * Resource)) :
  findConstruct p cs = Some r -> findConstruct p (cs ++ cs') = Some r.
Proof. intros H. rewrite findConstruct_app, H. reflexivity. Qed.

Lemma findConstruct_new (p : Path) (r : Resource) (cs cs' : list (Path * Resource)) :
  findConstruct p cs = None -> findConstruct p (cs ++ (p, r) :: cs') = Some r.
Proof.
  intros H. rewrite findConstruct_app, H. simpl. now rewrite pathEqb_refl.
Qed.

(** ** Running declarations *)

Lemma bind_Ok {A B} (m : M A) (f : A -> M B) (app : App) (b : B) (app2 : App) :
  bind m f app = Ok (b, app2) <->
  exists a app1, m app = Ok (a, app1) /\ f a app1 = Ok (b, app2).
Proof.
  unfold bind. split.
  - destruct (m app) as [[a app1]|e]; [|discriminate]. intros H. now exists a, app1.
  - intros (a & app1 & -> & H). exact H.
Qed.

Lemma Construct_new_Ok (scope : Path) (id : string) (r : Resource) (app : App)
      (p : Path) (app' : App) :
  Construct_new scope id r app = Ok (p, app') <->
  sanitizeId id <> "" /\
  findConstruct (scope ++ [sanitizeId id]) (constructs app) = None /\
  p = scope ++ [sanitizeId id] /\
  app' = declare p r app.
Proof.
  unfold Construct_new, declare. split.
  - destruct (String.eqb_spec (sanitizeId id) "") as [E|E]; [discriminate|].
    destruct (findConstruct _ _); [discriminate|].
    intros H. injection H as <- <-. auto.
  - intros (Hne & Hfresh & -> & ->).
    destruct (String.eqb_spec (sanitizeId id) "") as [E|E]; [contradiction|].
    now rewrite Hfresh.
Qed.

Lemma liftResult_Ok {A} (r : Result A) (app : App) (a : A) (app' : App) :
  liftResult r app = Ok (a, app') <-> r = Ok a /\ app' = app.
Proof.
  unfold liftResult. split.
  - destruct r; [|discriminate]. intros H. injection H as <- <-. auto.
  - intros [-> ->]. reflexivity.
Qed.

Lemma findConstruct_snoc_None (p q : Path) (r : Resource) (cs : list (Path * Resource)) :
  findConstruct p (cs ++ [(q, r)]) = None <->
  findConstruct p cs = None /\ pathEqb q p = false.
Proof.
  rewrite findConstruct_app. simpl.
  destruct (findConstruct p cs); destruct (pathEqb q p); intuition congruence.
Qed.

(** One step of a run that returned. *)
Ltac invert_step H :=
  lazymatch type of H with
  | Construct_new _ _ _ _ = Ok _ =>
      let Hne := fresh "Hne" in
      let Hfresh := fresh "Hfresh" in
      apply Construct_new_Ok in H; destruct H as (Hne & Hfresh & -> & ->)
  | Cluster.addManifest _ _ _ _ = Ok _ => unfold Cluster.addManifest in H; invert_step H
  | Cluster.addHelmChart _ _ _ _ = Ok _ => unfold Cluster.addHelmChart in H; invert_step H
  | Cluster.addServiceAccount _ _ _ _ = Ok _ =>
      unfold Cluster.addServiceAccount in H; invert_step H
  | Cluster.awsAuth_addRoleMapping _ _ _ _ = Ok _ =>
      unfold Cluster.awsAuth_addRoleMapping in H; injection H as <- <-
  | addDependency _ _ _ = Ok _ => unfold addDependency in H; injection H as <- <-
  | liftResult _ _ = Ok _ =>
      let Hr := fresh "Hresult" in
      apply liftResult_Ok in H; destruct H as (Hr & ->)
  | ret _ _ = Ok _ => unfold ret in H; injection H as <- <-
  end.

(** A whole run that returned: every step returned. *)
Ltac invert_run H :=
  lazymatch type of H with
  | bind _ _ _ = Ok _ =>
      let a := fresh "a" in
      let app1 := fresh "app" in
      let Hs := fresh "Hstep" in
      apply bind_Ok in H; destruct H as (a & app1 & Hs & H);
      invert_step Hs; invert_run H
  | _ => invert_step H
  end.

(** A freshness fact about a grown tree, split into one about the tree
    before and one per construct added since. *)
Ltac peel H :=
  simpl in H;
  repeat (let Hq := fresh "Hdistinct" in
          apply findConstruct_snoc_None in H; destruct H as [H Hq]).

Lemma isFree_true (p : Path) (app : App) :
  findConstruct p (constructs app) = None -> isFree p app = true.
Proof. unfold isFree. now intros ->. Qed.

Lemma constructor_Ok_inv {S : Semver} (scope : Path) (id : string)
      (props : KarpenterProps.t) (app : App) (k : Karpenter.t) (app' : App) :
  Karpenter.constructor scope id props app = Ok (k, app') ->
  exists helmRepository,
    Karpenter.setHelmRepository (KarpenterProps.helmRepository props)
      (KarpenterProps.version props) = Ok helmRepository
    /\ idsAvailable scope id (KarpenterProps.cluster props) app = true
    /\ k = constructed scope id props helmRepository
    /\ app' = afterConstruction scope id props helmRepository app.
Proof.
  intros H. unfold Karpenter.constructor in H. invert_run H.
  exists a. split; [assumption|]. split; [|split].
  - peel Hfresh0. peel Hfresh1. peel Hfresh2. peel Hfresh3. peel Hfresh4. peel Hfresh5.
    unfold idsAvailable. simpl.
    rewrite !isFree_true by assumption.
    destruct (String.eqb_spec (sanitizeId id) ""); [contradiction|].
    repeat match goal with
           | E : pathEqb ?a ?b = false |- context [pathEqb ?a ?b] => rewrite E
           end.
    reflexivity.
  - reflexivity.
  - unfold afterConstruction, declaredConstructs, declare. simpl.
    repeat rewrite <- app_assoc. simpl. reflexivity.
Qed.

Ltac path_neq :=
  first [ apply snoc_neq_self
        | apply not_eq_sym, snoc_neq_self
        | apply snoc_neq_last; discriminate
        | assumption
        | apply not_eq_sym; assumption ].

(** A construct is still absent after others were added at other paths. *)
Ltac still_fresh :=
  simpl;
  repeat (apply findConstruct_snoc_None; split);
  [ assumption | try (apply pathEqb_neq; path_neq) .. ].

(** The next step of a run creates a construct at a free path. *)
Ltac step_new :=
  apply bind_Ok; eexists _, _; split;
  [ apply Construct_new_Ok; split; [discriminate || assumption|];
    split; [still_fresh | split; reflexivity]
  | ].

Ltac step_pure :=
  apply bind_Ok; eexists _, _; split; [reflexivity|].

Lemma constructor_Ok_intro {S : Semver} (scope : Path) (id : string)
      (props : KarpenterProps.t) (app : App) (helmRepository : string) :
  Karpenter.setHelmRepository (KarpenterProps.helmRepository props)
    (KarpenterProps.version props) = Ok helmRepository ->
  idsAvailable scope id (KarpenterProps.cluster props) app = true ->
  Karpenter.constructor scope id props app =
  Ok (constructed scope id props helmRepository,
      afterConstruction scope id props helmRepository app).
Proof.
  intros Hrepo Hids. unfold idsAvailable, isFree in Hids. simpl in Hids.
  repeat match goal with
         | E : _ && _ = true |- _ => apply andb_true_iff in E; destruct E
         | E : true = true |- _ => clear E
         | E : negb _ = true |- _ => apply negb_true_iff in E
         | E : match ?x with Some _ => false | None => true end = true |- _ =>
             destruct x eqn:?; [discriminate E | clear E]
         | E : String.eqb _ _ = false |- _ => apply String.eqb_neq in E
         | E : pathEqb _ _ = false |- _ => apply pathEqb_false in E
         end.
  unfold Karpenter.constructor.
  step_new.
  apply bind_Ok; eexists _, _; split; [apply liftResult_Ok; split; [exact Hrepo | reflexivity]|].
  step_new. step_new. step_pure.
  unfold Cluster.addManifest. step_new.
  unfold Cluster.addServiceAccount. step_new.
  step_pure. step_new.
  unfold Cluster.addHelmChart. step_new.
  step_pure.
  unfold ret, constructed, afterConstruction, declaredConstructs, declare. simpl.
  repeat rewrite <- app_assoc. reflexivity.
Qed.

(** ** Which errors a run can end in *)

Lemma bind_Throw {A B} (m : M A) (f : A -> M B) (app : App) (e : Exception) :
  bind m f app = Throw e <->
  m app = Throw e \/ exists a app1, m app = Ok (a, app1) /\ f a app1 = Throw e.
Proof.
  unfold bind. split.
  - destruct (m app) as [[a app1]|e']; intros H.
    + right. now exists a, app1.
    + left. congruence.
  - intros [-> | (a & app1 & -> & H)]; [reflexivity | exact H].
Qed.

Lemma Construct_new_Throw (scope : Path) (id : string) (r : Resource) (app : App)
      (e : Exception) :
  Construct_new scope id r app = Throw e ->
  e = EmptyIdError \/ e = DuplicateNameError scope (sanitizeId id).
Proof.
  unfold Construct_new.
  destruct (String.eqb (sanitizeId id) ""); [intros H; injection H as <-; now left|].
  destruct (findConstruct _ _); [|discriminate].
  intros H. injection H as <-. now right.
Qed.

Lemma Construct_new_not_TypeError (scope : Path) (id : string) (r : Resource) (app : App)
      (message : string) :
  Construct_new scope id r app <> Throw (TypeError message).
Proof. intros H. apply Construct_new_Throw in H. destruct H; discriminate. Qed.

(** A run that ended in a [TypeError]: the step that threw it is the one
    lifted from a [Result]. *)
Ltac invert_TypeError H :=
  lazymatch type of H with
  | bind _ _ _ = Throw _ =>
      let a := fresh "a" in
      let app1 := fresh "app" in
      let Hs := fresh "Hstep" in
      apply bind_Throw in H; destruct H as [H | (a & app1 & Hs & H)];
      [ invert_TypeError H | clear Hs; invert_TypeError H ]
  | Construct_new _ _ _ _ = Throw (TypeError _) =>
      exfalso; exact (Construct_new_not_TypeError _ _ _ _ _ H)
  | Cluster.addManifest _ _ _ _ = Throw _ => unfold Cluster.addManifest in H; invert_TypeError H
  | Cluster.addHelmChart _ _ _ _ = Throw _ => unfold Cluster.addHelmChart in H; invert_TypeError H
  | Cluster.addServiceAccount _ _ _ _ = Throw _ =>
      unfold Cluster.addServiceAccount in H; invert_TypeError H
  | Cluster.awsAuth_addRoleMapping _ _ _ _ = Throw _ => discriminate H
  | addDependency _ _ _ = Throw _ => discriminate H
  | ret _ _ = Throw _ => discriminate H
  | liftResult _ _ = Throw _ => idtac
  end.

Lemma liftResult_Throw {A} (r : Result A) (app : App) (e : Exception) :
  liftResult r app = Throw e <-> r = Throw e.
Proof.
  unfold liftResult. destruct r; split; congruence.
Qed.

Lemma constructor_TypeError {S : Semver} (scope : Path) (id : string)
      (props : KarpenterProps.t) (app : App) (message : string) :
  Karpenter.constructor scope id props app = Throw (TypeError message) ->
  Karpenter.setHelmRepository (KarpenterProps.helmRepository props)
    (KarpenterProps.version props) = Throw (TypeError message).
Proof.
  intros H. unfold Karpenter.constructor in H. invert_TypeError H.
  now apply liftResult_Throw in H.
Qed.

Lemma addProvisioner_TypeError (k : Karpenter.t) (id : string) (spec : Json) (app : App)
      (message : string) :
  Karpenter.addProvisioner k id spec app <> Throw (TypeError message).
Proof.
  intros H. unfold Karpenter.addProvisioner in H. invert_TypeError H.
Qed.

(** ** [addProvisioner] *)

Lemma addProvisioner_Ok (k : Karpenter.t) (id : string) (spec : Json) (app : App)
      (u : unit) (app' : App) :
  Karpenter.addProvisioner k id spec app = Ok (u, app') <->
  findConstruct (provisionerPath k id) (constructs app) = None
  /\ app' = afterProvisioner k id spec app.
Proof.
  unfold Karpenter.addProvisioner, provisionerPath, afterProvisioner. split.
  - intros H. invert_run H. simpl in Hfresh. split; [exact Hfresh | reflexivity].
  - intros [Hfresh ->]. destruct u.
    apply bind_Ok. eexists _, _. split.
    + apply Construct_new_Ok. simpl. repeat split; [discriminate | exact Hfresh].
    + reflexivity.
Qed.

(** ** The comparison against the threshold *)

Lemma threshold_parses :
  semver.SemVer_new "0.17.0" =
  Ok {| semver.major := 0; semver.minor := 17; semver.patch := 0;
        semver.prerelease := []; semver.build := [] |}.
Proof. reflexivity. Qed.

Lemma compare_threshold (sv : semver.SemVer) :
  (semver.SemVer_compare sv
     {| semver.major := 0; semver.minor := 17; semver.patch := 0;
        semver.prerelease := []; semver.build := [] |} <? 0)%Z = true
  <-> precedesRelease sv 0 17 0.
Proof.
  unfold semver.SemVer_compare, semver.compareMain, semver.comparePre,
    semver.compareIdentifiers, semver.orElse, precedesRelease.
  simpl.
  destruct (N.eqb_spec (semver.major sv) 0) as [E1|E1];
    destruct (N.ltb_spec (semver.major sv) 0) as [L1|L1];
    destruct (N.eqb_spec (semver.minor sv) 17) as [E2|E2];
    destruct (N.ltb_spec (semver.minor sv) 17) as [L2|L2];
    destruct (N.eqb_spec (semver.patch sv) 0) as [E3|E3];
    destruct (N.ltb_spec (semver.patch sv) 0) as [L3|L3];
    destruct (semver.prerelease sv) as [|i pre]; simpl;
    split; intros H; try discriminate H; try reflexivity; try lia;
    try (repeat destruct H as [H|H]; try lia; destruct H as (? & ? & ? & ?); congruence || lia);
    try (right; right; right; repeat split; congruence);
    try (right; left; split; assumption).
Qed.

Lemma lt_threshold_Ok (v : string) (b : bool) :
  semver.lt v "0.17.0" = Ok b <->
  exists sv, semver.SemVer_new v = Ok sv
             /\ b = (semver.SemVer_compare sv
                       {| semver.major := 0; semver.minor := 17; semver.patch := 0;
                          semver.prerelease := []; semver.build := [] |} <? 0)%Z.
Proof.
  unfold semver.lt, semver.compare. rewrite threshold_parses. split.
  - destruct (semver.SemVer_new v) as [sv|e]; [|discriminate].
    intros H. injection H as <-. now exists sv.
  - intros (sv & -> & ->). reflexivity.
Qed.

Lemma lt_threshold_Throw (v : string) (e : Exception) :
  semver.lt v "0.17.0" = Throw e <-> semver.SemVer_new v = Throw e.
Proof.
  unfold semver.lt, semver.compare. rewrite threshold_parses.
  destruct (semver.SemVer_new v); split; congruence.
Qed.

Lemma SemVer_new_throws_TypeError (v : string) (e : Exception) :
  semver.SemVer_new v = Throw e -> exists message, e = TypeError message.
Proof.
  unfold semver.SemVer_new.
  repeat match goal with
         | |- context [if ?c then _ else _] => destruct c
         | |- context [match ?o with Some _ => _ | None => _ end] => destruct o
         end;
    intros H; try discriminate H; injection H as <-; eauto.
Qed.

(** ** Sequences of [addProvisioner] calls *)

Lemma addProvisioners_Ok_inv (k : Karpenter.t) (calls : list (string * Json))
      (app : App) (u : unit) (app' : App) :
  addProvisioners k calls app = Ok (u, app') ->
  constructs app' = constructs app ++ provisionerConstructs k calls
  /\ dependencies app' = dependencies app ++ provisionerDependencies k calls
  /\ awsAuth app' = awsAuth app.
Proof.
  revert app. induction calls as [|[pid spec] rest IH]; intros app H; simpl in H.
  - unfold ret in H. injection H as _ <-. simpl. now rewrite !app_nil_r.
  - apply bind_Ok in H. destruct H as ([] & app1 & Hadd & Hrest).
    apply addProvisioner_Ok in Hadd. destruct Hadd as [_ ->].
    apply IH in Hrest. destruct Hrest as (Hc & Hd & Ha).
    rewrite Hc, Hd, Ha. unfold afterProvisioner. simpl.
    now rewrite <- !app_assoc.
Qed.

Lemma addProvisioners_lookup (k : Karpenter.t) (calls : list (string * Json))
      (app : App) (u : unit) (app' : App) (pid : string) (spec : Json) :
  addProvisioners k calls app = Ok (u, app') ->
  In (pid, spec) calls ->
  findConstruct (provisionerPath k pid) (constructs app') =
  Some (KubernetesManifest (Karpenter.cluster k)
          [provisionerManifest pid (Karpenter.namespace k) spec]).
Proof.
  revert app. induction calls as [|[pid0 spec0] rest IH]; intros app H Hin; simpl in H.
  - destruct Hin.
  - apply bind_Ok in H. destruct H as ([] & app1 & Hadd & Hrest).
    destruct Hin as [E|Hin]; [|now apply (IH app1)].
    injection E as -> ->.
    apply addProvisioner_Ok in Hadd. destruct Hadd as [Hfresh ->].
    apply addProvisioners_Ok_inv in Hrest. destruct Hrest as (-> & _ & _).
    apply findConstruct_app_Some. unfold afterProvisioner. simpl.
    now apply findConstruct_new.
Qed.

(** ** The chart of a completed construction *)

Lemma constructed_chart (scope : Path) (id : string) (props : KarpenterProps.t)
      (repo : string) (app : App) :
  idsAvailable scope id (KarpenterProps.cluster props) app = true ->
  let cluster := KarpenterProps.cluster props in
  let namespace := nullish (KarpenterProps.namespace props) "karpenter" in
  findConstruct (cluster ++ ["manifest-namespace"])
    (constructs (afterConstruction scope id props repo app)) =
  Some (KubernetesManifest cluster [Karpenter.namespaceManifest namespace])
  /\ findConstruct (cluster ++ ["karpenter"])
       (constructs (afterConstruction scope id props repo app)) =
     Some (ServiceAccount cluster {| ServiceAccountOptions.namespace := Some namespace |})
  /\ findConstruct (cluster ++ ["chart-karpenter"])
       (constructs (afterConstruction scope id props repo app)) =
     Some (HelmChart cluster
             (Karpenter.chartOptions cluster namespace (KarpenterProps.version props) repo
                (cluster ++ ["karpenter"])
                ((scope ++ [sanitizeId id]) ++ ["InstanceProfile"]))).
Proof.
  intros Hids. unfold idsAvailable, isFree in Hids. simpl in Hids.
  repeat match goal with
         | E : _ && _ = true |- _ => apply andb_true_iff in E; destruct E
         | E : true = true |- _ => clear E
         | E : negb _ = true |- _ => apply negb_true_iff in E
         | E : match ?x with Some _ => false | None => true end = true |- _ =>
             destruct x eqn:?; [discriminate E | clear E]
         end.
  unfold afterConstruction, declaredConstructs. simpl.
  rewrite !findConstruct_app. simpl.
  repeat match goal with
         | E : findConstruct ?p ?cs = None |- context [findConstruct ?p ?cs] => rewrite E
         | E : pathEqb ?a ?b = false |- context [pathEqb ?a ?b] => rewrite E
         end.
  repeat match goal with
         | |- context [pathEqb ?a ?a] => rewrite (pathEqb_refl a)
         | |- context [pathEqb (?a ++ [?x]) (?b ++ [?y])] =>
             rewrite (pathEqb_neq (a ++ [x]) (b ++ [y]))
               by (apply snoc_neq_last; discriminate)
         end.
  repeat split; reflexivity.
Qed.

(** ** What [addProvisioner] declares *)

(** C9. A call [addProvisioner(id, provisionerSpec)] that returns has added
    to the cluster of the construct exactly one construct, holding exactly
    one manifest, whose apiVersion is 'karpenter.sh/v1alpha5', whose kind is
    'Provisioner', whose metadata.name is [id], whose metadata.namespace is
    the namespace of the construct and whose spec is [provisionerSpec]; the
    constructs declared before are still there, each at its path and as it
    was, the role mappings are untouched and the only new dependency is the
    one of the new manifest on the chart. *)
Theorem addProvisioner_adds_one_manifest (k : Karpenter.t) (id : string)
        (provisionerSpec : Json) (app app' : App) :
  Karpenter.addProvisioner k id provisionerSpec app = Ok (tt, app') ->
  exists m metadata,
    constructs app' =
      constructs app ++
      [ (Karpenter.cluster k ++ [("manifest-" ++ sanitizeId id)%string],
         KubernetesManifest (Karpenter.cluster k) [m]) ]
    /\ getField "apiVersion" m = Some (JString (lit "karpenter.sh/v1alpha5"))
    /\ getField "kind" m = Some (JString (lit "Provisioner"))
    /\ getField "metadata" m = Some metadata
    /\ getField "name" metadata = Some (JString (lit id))
    /\ getField "namespace" metadata = Some (JString (lit (Karpenter.namespace k)))
    /\ getField "spec" m = Some provisionerSpec
    /\ (forall p r, findConstruct p (constructs app) = Some r ->
                    findConstruct p (constructs app') = Some r)
    /\ awsAuth app' = awsAuth app
    /\ dependencies app' =
         dependencies app ++
         [ (Karpenter.cluster k ++ [("manifest-" ++ sanitizeId id)%string],
            Karpenter.chart k) ].
Proof.
  intros H. apply addProvisioner_Ok in H. destruct H as [_ ->].
  exists (provisionerManifest id (Karpenter.namespace k) provisionerSpec).
  eexists. unfold afterProvisioner, provisionerPath. simpl.
  repeat split; try reflexivity.
  intros p r Hp. now apply findConstruct_app_Some.
Qed.

(** ** Dependency order *)

(** C2. After a construction that returned, followed by any calls of
    [addProvisioner] that returned, the dependency edges of the app hold:
    the service account depends on the namespace manifest, the Helm chart
    depends on the namespace manifest, and the manifest of every
    provisioner depends on the Helm chart; each of these paths holds the
    resource in question. *)
Theorem dependencies_in_order {S : Semver} (scope : Path) (id : string)
        (props : KarpenterProps.t) (app : App) (k : Karpenter.t) (app1 : App)
        (calls : list (string * Json)) (app2 : App) :
  Karpenter.constructor scope id props app = Ok (k, app1) ->
  addProvisioners k calls app1 = Ok (tt, app2) ->
  let cluster := KarpenterProps.cluster props in
  let namespaceManifest := cluster ++ ["manifest-namespace"] in
  let serviceAccount := cluster ++ ["karpenter"] in
  findConstruct namespaceManifest (constructs app2) =
    Some (KubernetesManifest cluster [Karpenter.namespaceManifest (Karpenter.namespace k)])
  /\ findConstruct serviceAccount (constructs app2) =
       Some (ServiceAccount cluster
               {| ServiceAccountOptions.namespace := Some (Karpenter.namespace k) |})
  /\ (exists options,
         findConstruct (Karpenter.chart k) (constructs app2) =
         Some (HelmChart cluster options))
  /\ In (serviceAccount, namespaceManifest) (dependencies app2)
  /\ In (Karpenter.chart k, namespaceManifest) (dependencies app2)
  /\ forall pid spec,
       In (pid, spec) calls ->
       findConstruct (cluster ++ [("manifest-" ++ sanitizeId pid)%string]) (constructs app2) =
         Some (KubernetesManifest cluster
                 [provisionerManifest pid (Karpenter.namespace k) spec])
       /\ In (cluster ++ [("manifest-" ++ sanitizeId pid)%string], Karpenter.chart k)
             (dependencies app2).
Proof.
  intros Hnew Hadd cluster namespaceManifest serviceAccount.
  apply constructor_Ok_inv in Hnew.
  destruct Hnew as (repo & _ & Hids & -> & ->).
  destruct (constructed_chart scope id props repo app Hids) as (Hns & Hsa & Hchart).
  pose proof (addProvisioners_Ok_inv _ _ _ _ _ Hadd) as (Hc & Hd & _).
  rewrite Hc, Hd.
  split; [now apply findConstruct_app_Some|].
  split; [now apply findConstruct_app_Some|].
  split; [eexists; apply findConstruct_app_Some; exact Hchart|].
  split; [apply in_or_app; left; apply in_or_app; right; simpl; auto|].
  split; [apply in_or_app; left; apply in_or_app; right; simpl; auto|].
  intros pid spec Hin. split.
  - rewrite <- Hc. exact (addProvisioners_lookup _ _ _ _ _ _ _ Hadd Hin).
  - apply in_or_app. right. unfold provisionerDependencies.
    apply in_map_iff. exists (pid, spec). split; [reflexivity | exact Hin].
Qed.

(** ** The cluster the construct attaches to *)

Lemma filter_provisionerConstructs (k : Karpenter.t) (calls : list (string * Json))
      (c : Path) :
  filter (fun pr => targets c (snd pr)) (provisionerConstructs k calls) =
  if pathEqb (Karpenter.cluster k) c then provisionerConstructs k calls else [].
Proof.
  induction calls as [|call rest IH]; simpl.
  - now destruct (pathEqb _ _).
  - unfold targets at 1. simpl. rewrite IH.
    now destruct (pathEqb (Karpenter.cluster k) c).
Qed.

(** C6. The construct keeps the cluster it was given in its field
    [cluster]. After a construction and any calls of [addProvisioner] that
    returned, the Kubernetes resources of that cluster are the former ones
    followed by the namespace manifest, the service account, the Helm chart
    and the provisioner manifests, each a child of that cluster; its
    aws-auth gained the one role mapping of the node role; and for every
    other cluster the Kubernetes resources and the role mappings are what
    they were. *)
Theorem resources_attach_to_given_cluster {S : Semver} (scope : Path) (id : string)
        (props : KarpenterProps.t) (app : App) (k : Karpenter.t) (app1 : App)
        (calls : list (string * Json)) (app2 : App) :
  Karpenter.constructor scope id props app = Ok (k, app1) ->
  addProvisioners k calls app1 = Ok (tt, app2) ->
  let cluster := KarpenterProps.cluster props in
  Karpenter.cluster k = cluster
  /\ (exists options,
        kubernetesResourcesOf cluster app2 =
        kubernetesResourcesOf cluster app ++
        [ (cluster ++ ["manifest-namespace"],
           KubernetesManifest cluster [Karpenter.namespaceManifest (Karpenter.namespace k)]);
          (cluster ++ ["karpenter"],
           ServiceAccount cluster
             {| ServiceAccountOptions.namespace := Some (Karpenter.namespace k) |});
          (cluster ++ ["chart-karpenter"], HelmChart cluster options) ] ++
        map (fun c => (cluster ++ [("manifest-" ++ sanitizeId (fst c))%string],
                       KubernetesManifest cluster
                         [provisionerManifest (fst c) (Karpenter.namespace k) (snd c)]))
            calls)
  /\ awsAuth app2 =
       awsAuth app ++ [(cluster, RoleAt (Karpenter.nodeRole k), Karpenter.nodeRoleMapping)]
  /\ forall other,
       other <> cluster ->
       kubernetesResourcesOf other app2 = kubernetesResourcesOf other app
       /\ roleMappingsOf other app2 = roleMappingsOf other app.
Proof.
  intros Hnew Hadd cluster.
  apply constructor_Ok_inv in Hnew.
  destruct Hnew as (repo & _ & _ & -> & ->).
  apply addProvisioners_Ok_inv in Hadd. destruct Hadd as (Hc & _ & Ha).
  split; [reflexivity|].
  unfold kubernetesResourcesOf, roleMappingsOf. rewrite Hc, Ha.
  unfold afterConstruction. cbn [constructs awsAuth]. fold cluster.
  split; [|split].
  - eexists. rewrite !filter_app, filter_provisionerConstructs.
    unfold declaredConstructs, targets.
    cbn [filter snd targetCluster constructed Karpenter.cluster]. fold cluster.
    rewrite !pathEqb_refl. rewrite <- app_assoc. reflexivity.
  - reflexivity.
  - intros other Hother.
    rewrite !filter_app, filter_provisionerConstructs.
    unfold declaredConstructs, targets.
    cbn [filter snd targetCluster constructed Karpenter.cluster]. fold cluster.
    rewrite (pathEqb_neq cluster other) by (now apply not_eq_sym).
    split; [now rewrite !app_nil_r|].
    cbn [filter fst]. rewrite (pathEqb_neq cluster other) by (now apply not_eq_sym).
    now rewrite app_nil_r.
Qed.

(** ** Configuration fields *)

(** C4. In a construction that returned, the options of the declared Helm
    chart carry the configured fields as they were given: a defined
    [props.version] is the chart's version, a defined [props.namespace] is
    the chart's namespace, a defined [props.helmRepository] is the chart's
    repository, and the same strings are the fields of the construct. *)
Theorem props_pass_through {S : Semver} (scope : Path) (id : string)
        (props : KarpenterProps.t) (app : App) (k : Karpenter.t) (app' : App) :
  Karpenter.constructor scope id props app = Ok (k, app') ->
  exists options,
    findConstruct (Karpenter.chart k) (constructs app') =
      Some (HelmChart (KarpenterProps.cluster props) options)
    /\ (forall v, KarpenterProps.version props = Some v ->
                  HelmChartOptions.version options = Some v
                  /\ Karpenter.version k = Some v)
    /\ (forall n, KarpenterProps.namespace props = Some n ->
                  HelmChartOptions.namespace options = Some n
                  /\ Karpenter.namespace k = n)
    /\ (forall r, KarpenterProps.helmRepository props = Some r ->
                  HelmChartOptions.repository options = Some r
                  /\ Karpenter.helmRepository k = Some r).
Proof.
  intros Hnew. apply constructor_Ok_inv in Hnew.
  destruct Hnew as (repo & Hrepo & Hids & -> & ->).
  destruct (constructed_chart scope id props repo app Hids) as (_ & _ & Hchart).
  eexists. split; [exact Hchart|]. simpl.
  split; [|split].
  - intros v Hv. rewrite Hv. auto.
  - intros n Hn. rewrite Hn. auto.
  - intros r Hr. rewrite Hr in Hrepo. simpl in Hrepo. injection Hrepo as ->. auto.
Qed.

(** ** The declared resources *)

(** C5. A construction that returned has declared, whatever the props,
    exactly these constructs after the one of the construct itself, in this
    order: the node role, assumable by the EC2 service principal and
    carrying the four managed policies; the instance profile, holding that
    role and named by the cluster name, a dash and the id; the Namespace
    manifest; the service account in that namespace; the controller policy,
    attached to the role of the service account, whose iam:PassRole
    statement names the ARN of the node role as its only resource; and the
    Helm chart.  It has added one aws-auth role mapping, for the node role,
    with the username and the two groups of a node. *)
Theorem constructor_declares_fixed_resources {S : Semver} (scope : Path) (id : string)
        (props : KarpenterProps.t) (app : App) (k : Karpenter.t) (app' : App) :
  Karpenter.constructor scope id props app = Ok (k, app') ->
  let this := Karpenter.node k in
  let cluster := KarpenterProps.cluster props in
  let nodeRole := Karpenter.nodeRole k in
  let serviceAccount := cluster ++ ["karpenter"] in
  exists policy chartOptions,
    constructs app' =
      constructs app ++
      [ (this, KarpenterConstruct);
        (nodeRole,
         Role {| RoleProps.assumedBy := [Chars "ec2."; Tok URL_SUFFIX];
                 RoleProps.managedPolicies :=
                   [ "AmazonEKS_CNI_Policy";
                     "AmazonEKSWorkerNodePolicy";
                     "AmazonEC2ContainerRegistryReadOnly";
                     "AmazonSSMManagedInstanceCore" ] |});
        (this ++ ["InstanceProfile"],
         CfnInstanceProfile
           {| CfnInstanceProfileProps.roles := [[Tok (roleName (RoleAt nodeRole))]];
              CfnInstanceProfileProps.instanceProfileName :=
                [Tok (clusterName cluster); Chars "-"; Chars id] |});
        (cluster ++ ["manifest-namespace"],
         KubernetesManifest cluster
           [ JObject [ ("apiVersion", JString (lit "v1"));
                       ("kind", JString (lit "Namespace"));
                       ("metadata",
                        JObject [("name", JString (lit (Karpenter.namespace k)))]) ] ]);
        (serviceAccount,
         ServiceAccount cluster
           {| ServiceAccountOptions.namespace := Some (Karpenter.namespace k) |});
        (this ++ ["ControllerPolicy"], Policy policy);
        (Karpenter.chart k, HelmChart cluster chartOptions) ]
    /\ PolicyProps.roles policy = [RoleOfServiceAccount serviceAccount]
    /\ (exists statement,
          In statement (PolicyProps.statements policy)
          /\ PolicyStatement.actions statement = ["iam:PassRole"])
    /\ (forall statement,
          In statement (PolicyProps.statements policy) ->
          In "iam:PassRole" (PolicyStatement.actions statement) ->
          PolicyStatement.resources statement = [[Tok (roleArn (RoleAt nodeRole))]])
    /\ awsAuth app' =
         awsAuth app ++
         [ (cluster, RoleAt nodeRole,
            {| AwsAuthMapping.username := "system:node:{{EC2PrivateDNSName}}";
               AwsAuthMapping.groups := ["system:bootstrappers"; "system:nodes"] |}) ].
Proof.
  intros Hnew. apply constructor_Ok_inv in Hnew.
  destruct Hnew as (repo & _ & _ & -> & ->).
  eexists _, _. split; [reflexivity|]. split; [reflexivity|].
  split; [|split; [|reflexivity]].
  - eexists. split; [right; left; reflexivity | reflexivity].
  - intros statement [<-|[<-|[]]] Hin; [|reflexivity].
    exfalso. simpl in Hin.
    repeat (destruct Hin as [Hin|Hin]; [discriminate Hin|]). exact Hin.
Qed.

(** ** Defaults *)


(** ** The repository *)

(** C8. When [props.helmRepository] is defined, whatever [props.version]
    is and whatever the module [semver] would answer or throw: the block
    that sets the repository yields [props.helmRepository]; the whole
    construction runs as it does with a [semver.lt] that throws on every
    call, so the comparison is not evaluated; it never ends in a
    [TypeError]; when it returns, the field [helmRepository] of the
    construct and the repository of the Helm chart are
    [props.helmRepository]; and it does return when the construct tree
    accepts the ids. *)
Theorem explicit_helmRepository_wins (S : Semver) (scope : Path) (id : string)
        (props : KarpenterProps.t) (app : App) (r : string) :
  KarpenterProps.helmRepository props = Some r ->
  Karpenter.setHelmRepository (KarpenterProps.helmRepository props)
    (KarpenterProps.version props) = Ok r
  /\ Karpenter.constructor scope id props app =
     Karpenter.constructor (semverModule := throwingSemver) scope id props app
  /\ (forall message,
        Karpenter.constructor scope id props app <> Throw (TypeError message))
  /\ (forall k app',
        Karpenter.constructor scope id props app = Ok (k, app') ->
        Karpenter.helmRepository k = Some r
        /\ exists options,
             findConstruct (Karpenter.chart k) (constructs app') =
               Some (HelmChart (KarpenterProps.cluster props) options)
             /\ HelmChartOptions.repository options = Some r)
  /\ (idsAvailable scope id (KarpenterProps.cluster props) app = true ->
      exists k app', Karpenter.constructor scope id props app = Ok (k, app')).
Proof.
  intros Hr.
  assert (Hset : forall S' : Semver,
            Karpenter.setHelmRepository (semverModule := S')
              (KarpenterProps.helmRepository props) (KarpenterProps.version props) = Ok r)
    by (intros S'; rewrite Hr; reflexivity).
  split; [apply Hset|]. split; [|split; [|split]].
  - unfold Karpenter.constructor. now rewrite !Hset.
  - intros message H. apply constructor_TypeError in H.
    rewrite Hset in H. discriminate H.
  - intros k app' H. apply constructor_Ok_inv in H.
    destruct H as (repo & Hrepo & Hids & -> & ->).
    rewrite Hset in Hrepo. injection Hrepo as <-.
    split; [reflexivity|].
    destruct (constructed_chart scope id props r app Hids) as (_ & _ & Hchart).
    eexists. split; [exact Hchart | reflexivity].
  - intros Hids. eexists _, _. now apply constructor_Ok_intro.
Qed.

(** ** Version texts and the parser *)

Lemma isDigit_oneOf c : semver.isDigit c = oneOf decimalDigits c.
Proof. destruct c as [[] [] [] [] [] [] [] []]; reflexivity. Qed.

Lemma isLetterDashNumber_oneOf c :
  semver.isLetterDashNumber c = oneOf identifierCharacters c.
Proof. destruct c as [[] [] [] [] [] [] [] []]; reflexivity. Qed.

Lemma isWhiteSpace_isSpace c : semver.isWhiteSpace c = isSpace c.
Proof. destruct c as [[] [] [] [] [] [] [] []]; reflexivity. Qed.

(** [trim] *)
Lemma trimStart_app_spaces ws s :
  forallb semver.isWhiteSpace ws = true ->
  semver.trimStart (ws ++ s) = semver.trimStart s.
Proof.
  induction ws as [|c ws IH]; simpl; [reflexivity|].
  intros H. apply andb_true_iff in H. destruct H as [Hc Hws].
  rewrite Hc. now apply IH.
Qed.

Lemma trimStart_nonspace c s :
  semver.isWhiteSpace c = false -> semver.trimStart (c :: s) = c :: s.
Proof. intros H. simpl. now rewrite H. Qed.

Lemma trimStart_decompose s :
  exists ws, forallb semver.isWhiteSpace ws = true /\ s = ws ++ semver.trimStart s.
Proof.
  induction s as [|c s IH]; simpl.
  - now exists [].
  - destruct (semver.isWhiteSpace c) eqn:E.
    + destruct IH as (ws & Hws & Hs). exists (c :: ws). simpl.
      rewrite E, Hws. split; [reflexivity | now rewrite <- Hs].
    + now exists [].
Qed.

Lemma forallb_rev {A} (p : A -> bool) (l : list A) :
  forallb p (rev l) = forallb p l.
Proof.
  induction l as [|a l IH]; simpl; [reflexivity|].
  rewrite forallb_app, IH. simpl. rewrite andb_true_r. apply andb_comm.
Qed.

Lemma trimStart_all_nonspace s :
  forallb (fun c => negb (semver.isWhiteSpace c)) s = true -> semver.trimStart s = s.
Proof.
  destruct s as [|c s]; simpl; [reflexivity|].
  intros H. apply andb_true_iff in H. destruct H as [Hc _].
  apply negb_true_iff in Hc. now rewrite Hc.
Qed.

Lemma trim_body ws1 body ws2 :
  forallb semver.isWhiteSpace ws1 = true ->
  forallb semver.isWhiteSpace ws2 = true ->
  body <> [] ->
  forallb (fun c => negb (semver.isWhiteSpace c)) body = true ->
  semver.trim (ws1 ++ body ++ ws2) = body.
Proof.
  intros H1 H2 Hne Hbody. unfold semver.trim.
  rewrite (trimStart_app_spaces _ _ H1).
  destruct body as [|c body]; [contradiction|].
  assert (Hc : semver.isWhiteSpace c = false).
  { simpl in Hbody. apply andb_true_iff in Hbody. destruct Hbody as [Hc _].
    now apply negb_true_iff in Hc. }
  change ((c :: body) ++ ws2) with (c :: (body ++ ws2)).
  rewrite (trimStart_nonspace _ _ Hc).
  change (c :: body ++ ws2) with ((c :: body) ++ ws2).
  rewrite rev_app_distr.
  rewrite trimStart_app_spaces by (now rewrite forallb_rev).
  rewrite trimStart_all_nonspace by (now rewrite forallb_rev).
  apply rev_involutive.
Qed.

Lemma trim_decompose s :
  exists ws1 ws2,
    forallb semver.isWhiteSpace ws1 = true
    /\ forallb semver.isWhiteSpace ws2 = true
    /\ s = ws1 ++ semver.trim s ++ ws2.
Proof.
  destruct (trimStart_decompose s) as (ws1 & H1 & Hs).
  destruct (trimStart_decompose (rev (semver.trimStart s))) as (ws2 & H2 & Hr).
  exists ws1, (rev ws2). split; [exact H1|]. split; [now rewrite forallb_rev|].
  unfold semver.trim. rewrite <- rev_app_distr, <- Hr, rev_involutive. exact Hs.
Qed.

(** [split] at a separator *)
Lemma breakAt_spec sep s l r :
  semver.breakAt sep s = (l, r) ->
  ~ In sep l /\ s = l ++ match r with Some x => sep :: x | None => [] end.
Proof.
  revert l r. induction s as [|c s IH]; simpl; intros l r H.
  - injection H as <- <-. split; [intros [] | reflexivity].
  - destruct (Ascii.eqb_spec c sep) as [->|Hc].
    + injection H as <- <-. split; [intros [] | reflexivity].
    + destruct (semver.breakAt sep s) as [l' r'] eqn:E.
      injection H as <- <-. destruct (IH _ _ eq_refl) as [Hnotin Hs].
      split; [intros [Heq|Hin]; [congruence | contradiction] | simpl; now rewrite <- Hs].
Qed.

Lemma breakAt_notin sep l :
  ~ In sep l -> semver.breakAt sep l = (l, None).
Proof.
  induction l as [|c l IH]; simpl; intros H; [reflexivity|].
  destruct (Ascii.eqb_spec c sep) as [->|Hc]; [exfalso; apply H; now left|].
  rewrite IH; [reflexivity | intros Hin; apply H; now right].
Qed.

Lemma breakAt_app sep l r :
  ~ In sep l -> semver.breakAt sep (l ++ sep :: r) = (l, Some r).
Proof.
  induction l as [|c l IH]; simpl; intros H.
  - now rewrite Ascii.eqb_refl.
  - destruct (Ascii.eqb_spec c sep) as [->|Hc]; [exfalso; apply H; now left|].
    rewrite IH; [reflexivity | intros Hin; apply H; now right].
Qed.

Lemma split_notin sep a : ~ In sep a -> semver.split sep a = [a].
Proof.
  induction a as [|c a IH]; simpl; intros H; [reflexivity|].
  destruct (Ascii.eqb_spec c sep) as [->|Hc]; [exfalso; apply H; now left|].
  rewrite IH; [reflexivity | intros Hin; apply H; now right].
Qed.

Lemma split_app sep a r :
  ~ In sep a -> semver.split sep (a ++ sep :: r) = a :: semver.split sep r.
Proof.
  induction a as [|c a IH]; simpl; intros H.
  - now rewrite Ascii.eqb_refl.
  - destruct (Ascii.eqb_spec c sep) as [->|Hc]; [exfalso; apply H; now left|].
    rewrite IH; [reflexivity | intros Hin; apply H; now right].
Qed.

Lemma split_joinDots parts :
  parts <> [] ->
  Forall (fun a => ~ In "."%char a) parts ->
  semver.split "." (joinDots parts) = parts.
Proof.
  induction parts as [|a rest IH]; intros Hne Hall; [contradiction|].
  inversion Hall as [|x l Ha Hrest]; subst.
  destruct rest as [|b rest].
  - simpl. now apply split_notin.
  - change (joinDots (a :: b :: rest)) with (a ++ "."%char :: joinDots (b :: rest)).
    rewrite split_app by assumption. f_equal. apply IH; [discriminate | assumption].
Qed.

Lemma split_cons sep s : exists a rest, semver.split sep s = a :: rest.
Proof.
  induction s as [|c s IH]; simpl; [now eexists _, _|].
  destruct (Ascii.eqb c sep); [now eexists _, _|].
  destruct IH as (a & rest & ->). now eexists _, _.
Qed.

Lemma joinDots_cons a b rest :
  joinDots (a :: b :: rest) = a ++ "."%char :: joinDots (b :: rest).
Proof. reflexivity. Qed.

Lemma joinDots_split s :
  joinDots (semver.split "." s) = s
  /\ Forall (fun a => ~ In "."%char a) (semver.split "." s).
Proof.
  induction s as [|c s IH]; [split; [reflexivity | repeat constructor; intros []]|].
  destruct IH as [Hjoin Hall].
  destruct (split_cons "." s) as (a & rest & E).
  cbn [semver.split]. rewrite E in Hjoin, Hall |- *.
  destruct (Ascii.eqb_spec c ".") as [->|Hc].
  - split; [|constructor; [intros [] | assumption]].
    rewrite joinDots_cons, Hjoin. reflexivity.
  - pose proof (Forall_inv Hall) as Ha. pose proof (Forall_inv_tail Hall) as Hrest.
    split.
    + destruct rest as [|b rest].
      * simpl in *. now rewrite Hjoin.
      * rewrite joinDots_cons. rewrite joinDots_cons in Hjoin.
        rewrite <- Hjoin. reflexivity.
    + constructor; [|assumption]. intros [Heq|Hin]; [congruence | contradiction].
Qed.

(** Numerals *)
Lemma digitsValue_numeralValue s : semver.digitsValue s = numeralValue s.
Proof.
  unfold semver.digitsValue, numeralValue.
  set (f := fun (acc : N) (c : ascii) => (10 * acc + (semver.code c - 48))%N).
  induction s as [|c s IH] using rev_ind; [reflexivity|].
  rewrite fold_left_app, rev_app_distr.
  cbn [fold_left rev app valueOfReversed]. rewrite IH.
  unfold f, digitValue, semver.code. lia.
Qed.

Lemma size_le_53 n : (n <= 9007199254740991)%N -> (N.size n <= 53)%N.
Proof.
  intros H. destruct (N.le_gt_cases (N.size n) 53) as [Hle|Hgt]; [exact Hle|].
  exfalso. pose proof (N.size_le n) as Hs.
  assert (Hpow : (2 ^ 54 <= 2 ^ N.size n)%N) by (apply N.pow_le_mono_r; lia).
  rewrite N.succ_double_spec in Hs.
  change (2 ^ 54)%N with 18014398509481984%N in Hpow. lia.
Qed.

Lemma roundToDouble_safe n :
  (n <= 9007199254740991)%N -> semver.roundToDouble n = n.
Proof.
  intros H. unfold semver.roundToDouble.
  apply size_le_53 in H. apply N.leb_le in H. now rewrite H.
Qed.

Lemma roundToDouble_unsafe n :
  (9007199254740991 < n)%N -> (9007199254740991 < semver.roundToDouble n)%N.
Proof.
  intros H. unfold semver.roundToDouble.
  destruct (N.leb_spec (N.size n) 53) as [Hle|Hgt]; [exact H|].
  set (sh := (N.size n - 53)%N).
  set (q := N.shiftr n sh).
  assert (Hq : (2 ^ 52 <= q)%N).
  { unfold q. rewrite N.shiftr_div_pow2.
    pose proof (N.size_le n) as Hs. rewrite N.succ_double_spec in Hs.
    assert (Hsize : N.size n = (sh + 53)%N) by (unfold sh; lia).
    rewrite Hsize in Hs.
    replace (sh + 53)%N with (1 + 52 + sh)%N in Hs by lia.
    rewrite !N.pow_add_r in Hs. change (2 ^ 1)%N with 2%N in Hs.
    assert (Hpos : (0 < 2 ^ sh)%N) by (apply N.neq_0_lt_0, N.pow_nonzero; lia).
    assert (Hn : (2 ^ 52 * 2 ^ sh <= n)%N) by nia.
    apply N.div_le_lower_bound; [lia|]. rewrite N.mul_comm. exact Hn. }
  assert (Hsh : (1 <= sh)%N) by (unfold sh; lia).
  match goal with
  | |- (_ < N.shiftl ?q' sh)%N => assert (Hq' : (q <= q')%N) by (destruct (_ || _); lia);
                                  set (r := q') in *
  end.
  rewrite N.shiftl_mul_pow2.
  assert (Hpow : (2 ^ 1 <= 2 ^ sh)%N) by (apply N.pow_le_mono_r; lia).
  change (2 ^ 1)%N with 2%N in Hpow.
  change (2 ^ 52)%N with 4503599627370496%N in Hq. nia.
Qed.

Lemma toNumber_safe s :
  (numeralValue s <= 9007199254740991)%N -> semver.toNumber s = numeralValue s.
Proof.
  intros H. unfold semver.toNumber. rewrite digitsValue_numeralValue.
  now apply roundToDouble_safe.
Qed.

Lemma toNumber_bound s :
  (semver.MAX_SAFE_INTEGER <? semver.toNumber s)%N = false ->
  (numeralValue s <= 9007199254740991)%N.
Proof.
  intros H. apply N.ltb_ge in H. unfold semver.toNumber in H.
  rewrite digitsValue_numeralValue in H.
  destruct (N.le_gt_cases (numeralValue s) 9007199254740991) as [Hle|Hgt]; [exact Hle|].
  apply roundToDouble_unsafe in Hgt. unfold semver.MAX_SAFE_INTEGER in H. lia.
Qed.

(** Identifiers *)
Lemma code_48 c : (semver.code c =? 48)%N = Ascii.eqb c "0".
Proof. destruct c as [[] [] [] [] [] [] [] []]; reflexivity. Qed.

Lemma forallb_ext_eq {A} (p q : A -> bool) (l : list A) :
  (forall a, p a = q a) -> forallb p l = forallb q l.
Proof. intros H. induction l as [|a l IH]; simpl; [reflexivity|]. now rewrite H, IH. Qed.

Lemma isNumericIdentifier_isNumeral s : semver.isNumericIdentifier s = isNumeral s.
Proof.
  destruct s as [|c rest]; [reflexivity|].
  unfold semver.isNumericIdentifier, isNumeral.
  rewrite (forallb_ext_eq _ _ _ isDigit_oneOf), code_48.
  now destruct rest.
Qed.

Lemma existsb_negb {A} (p : A -> bool) (l : list A) :
  existsb (fun a => negb (p a)) l = negb (forallb p l).
Proof.
  induction l as [|a l IH]; simpl; [reflexivity|].
  rewrite IH. now destruct (p a).
Qed.

Lemma digit_is_identifierCharacter c :
  oneOf decimalDigits c = true -> oneOf identifierCharacters c = true.
Proof. destruct c as [[] [] [] [] [] [] [] []]; intros H; (reflexivity || discriminate H). Qed.

Lemma forallb_impl {A} (p q : A -> bool) (l : list A) :
  (forall a, p a = true -> q a = true) -> forallb p l = true -> forallb q l = true.
Proof.
  intros H. induction l as [|a l IH]; simpl; [reflexivity|].
  intros Hl. apply andb_true_iff in Hl. destruct Hl as [Ha Hl].
  now rewrite (H _ Ha), IH.
Qed.

Lemma isNumeral_digits s : isNumeral s = true -> forallb (oneOf decimalDigits) s = true.
Proof.
  destruct s as [|c rest]; [discriminate|]. unfold isNumeral.
  intros H. apply andb_true_iff in H. tauto.
Qed.

Lemma isPrereleaseIdentifier_isPrereleaseTag s :
  semver.isPrereleaseIdentifier s = isPrereleaseTag s.
Proof.
  unfold semver.isPrereleaseIdentifier, semver.isNonNumericIdentifier.
  rewrite isNumericIdentifier_isNumeral.
  rewrite (forallb_ext_eq _ _ s isLetterDashNumber_oneOf).
  rewrite existsb_negb, (forallb_ext_eq _ _ s isDigit_oneOf).
  destruct s as [|c rest]; [reflexivity|].
  unfold isPrereleaseTag.
  destruct (isNumeral (c :: rest)) eqn:Hn.
  - pose proof (isNumeral_digits _ Hn) as Hd.
    rewrite (forallb_impl _ _ _ digit_is_identifierCharacter Hd), Hd. reflexivity.
  - simpl orb. now rewrite orb_false_r.
Qed.

Lemma isBuildIdentifier_isBuildTag s : semver.isBuildIdentifier s = isBuildTag s.
Proof.
  destruct s as [|c rest]; [reflexivity|].
  unfold semver.isBuildIdentifier, isBuildTag.
  apply forallb_ext_eq, isLetterDashNumber_oneOf.
Qed.

Lemma oneOf_notin (cls : string) (sep : ascii) (l : list ascii) :
  oneOf cls sep = false -> forallb (oneOf cls) l = true -> ~ In sep l.
Proof.
  intros Hsep Hl Hin. rewrite forallb_forall in Hl. apply Hl in Hin. congruence.
Qed.

Lemma digit_numberCharacter c :
  oneOf decimalDigits c = true -> oneOf numberCharacters c = true.
Proof. destruct c as [[] [] [] [] [] [] [] []]; intros H; (reflexivity || discriminate H). Qed.

Lemma number_dottedCharacter c :
  oneOf numberCharacters c = true -> oneOf dottedCharacters c = true.
Proof. destruct c as [[] [] [] [] [] [] [] []]; intros H; (reflexivity || discriminate H). Qed.

Lemma identifier_dottedCharacter c :
  oneOf identifierCharacters c = true -> oneOf dottedCharacters c = true.
Proof. destruct c as [[] [] [] [] [] [] [] []]; intros H; (reflexivity || discriminate H). Qed.

Lemma dotted_bodyCharacter c :
  oneOf dottedCharacters c = true -> oneOf bodyCharacters c = true.
Proof. destruct c as [[] [] [] [] [] [] [] []]; intros H; (reflexivity || discriminate H). Qed.

Lemma bodyCharacter_nonspace c :
  oneOf bodyCharacters c = true -> negb (semver.isWhiteSpace c) = true.
Proof. destruct c as [[] [] [] [] [] [] [] []]; intros H; (reflexivity || discriminate H). Qed.

Lemma forallb_joinDots (cls : string) (tags : list (list ascii)) :
  oneOf cls "." = true ->
  forallb (fun tag => forallb (oneOf cls) tag) tags = true ->
  forallb (oneOf cls) (joinDots tags) = true.
Proof.
  intros Hdot. induction tags as [|a rest IH]; [reflexivity|].
  intros H. simpl in H. apply andb_true_iff in H. destruct H as [Ha Hrest].
  destruct rest as [|b rest]; [exact Ha|].
  rewrite joinDots_cons, forallb_app. cbn [forallb]. now rewrite Ha, Hdot, IH.
Qed.

Lemma isPrereleaseTag_characters tag :
  isPrereleaseTag tag = true -> forallb (oneOf identifierCharacters) tag = true.
Proof.
  destruct tag; [discriminate|]. unfold isPrereleaseTag.
  intros H. apply andb_true_iff in H. tauto.
Qed.

Lemma isBuildTag_characters tag :
  isBuildTag tag = true -> forallb (oneOf identifierCharacters) tag = true.
Proof. destruct tag; [discriminate|]. now unfold isBuildTag. Qed.

Lemma tags_characters (p : list ascii -> bool) (cls : string) (tags : list (list ascii)) :
  (forall tag, p tag = true -> forallb (oneOf identifierCharacters) tag = true) ->
  (forall c, oneOf identifierCharacters c = true -> oneOf cls c = true) ->
  forallb p tags = true ->
  forallb (fun tag => forallb (oneOf cls) tag) tags = true.
Proof.
  intros Hp Hcls. apply forallb_impl. intros tag Htag.
  apply (forallb_impl _ _ _ Hcls). now apply Hp.
Qed.

Lemma tags_no_dot (p : list ascii -> bool) (tags : list (list ascii)) :
  (forall tag, p tag = true -> forallb (oneOf identifierCharacters) tag = true) ->
  forallb p tags = true ->
  Forall (fun a => ~ In "."%char a) tags.
Proof.
  intros Hp H. apply Forall_forall. intros tag Hin.
  rewrite forallb_forall in H. apply H, Hp in Hin.
  now apply (oneOf_notin identifierCharacters).
Qed.

Lemma coreText_characters t :
  isNumeral (majorText t) = true -> isNumeral (minorText t) = true ->
  isNumeral (patchText t) = true ->
  forallb (oneOf numberCharacters) (coreText t) = true.
Proof.
  intros HM Hm Hp. unfold coreText.
  rewrite forallb_app. cbn [forallb]. rewrite forallb_app. cbn [forallb].
  rewrite (forallb_impl _ _ _ digit_numberCharacter (isNumeral_digits _ HM)).
  rewrite (forallb_impl _ _ _ digit_numberCharacter (isNumeral_digits _ Hm)).
  rewrite (forallb_impl _ _ _ digit_numberCharacter (isNumeral_digits _ Hp)).
  reflexivity.
Qed.

Lemma prereleaseText_characters t :
  forallb isPrereleaseTag (prereleaseTags t) = true ->
  forallb (oneOf dottedCharacters) (prereleaseText t) = true.
Proof.
  intros H. unfold prereleaseText.
  destruct (prereleaseTags t) as [|a rest] eqn:E; [reflexivity|].
  cbn [forallb]. rewrite forallb_joinDots; [reflexivity | reflexivity |].
  exact (tags_characters _ _ _ isPrereleaseTag_characters identifier_dottedCharacter H).
Qed.

Lemma buildText_characters t :
  forallb isBuildTag (buildTags t) = true ->
  forallb (oneOf bodyCharacters) (buildText t) = true.
Proof.
  intros H. unfold buildText.
  destruct (buildTags t) as [|a rest] eqn:E; [reflexivity|].
  cbn [forallb]. rewrite forallb_joinDots; [reflexivity | reflexivity |].
  apply (tags_characters _ _ _ isBuildTag_characters); [|exact H].
  intros c Hc. now apply dotted_bodyCharacter, identifier_dottedCharacter.
Qed.

Lemma matchFull_bodyText t :
  isNumeral (majorText t) = true -> isNumeral (minorText t) = true ->
  isNumeral (patchText t) = true ->
  forallb isPrereleaseTag (prereleaseTags t) = true ->
  forallb isBuildTag (buildTags t) = true ->
  semver.matchFull (bodyText t) = Some (groupsOf t).
Proof.
  intros HM Hm Hp Hpre Hbuild.
  pose proof (coreText_characters t HM Hm Hp) as Hcore.
  pose proof (prereleaseText_characters t Hpre) as HpreC.
  assert (Hplus : ~ In "+"%char (coreText t ++ prereleaseText t)).
  { apply (oneOf_notin dottedCharacters); [reflexivity|].
    rewrite forallb_app, HpreC.
    now rewrite (forallb_impl _ _ _ number_dottedCharacter Hcore). }
  assert (Hdash : ~ In "-"%char (coreText t))
    by (now apply (oneOf_notin numberCharacters)).
  assert (Hdot : forall s, isNumeral s = true -> ~ In "."%char s).
  { intros s Hs. apply (oneOf_notin decimalDigits); [reflexivity|].
    now apply isNumeral_digits. }
  assert (Hstrip : match bodyText t with
                   | c :: s' => if Ascii.eqb c "v" then s' else bodyText t
                   | [] => bodyText t
                   end = (coreText t ++ prereleaseText t) ++ buildText t).
  { unfold bodyText. destruct (letterV t).
    - cbn [app]. rewrite Ascii.eqb_refl. now rewrite app_assoc.
    - cbn [app]. rewrite app_assoc.
      unfold coreText at 1. destruct (majorText t) as [|c rest] eqn:E; [discriminate HM|].
      cbn [app]. unfold isNumeral in HM. cbn [forallb] in HM.
      destruct (Ascii.eqb_spec c "v") as [->|_]; [discriminate HM|].
      unfold coreText. rewrite E. reflexivity. }
  unfold semver.matchFull. rewrite Hstrip.
  assert (Hbreak : semver.breakAt "+" ((coreText t ++ prereleaseText t) ++ buildText t) =
                   (coreText t ++ prereleaseText t, semver.m5 (groupsOf t))).
  { unfold buildText, groupsOf. cbn [semver.m5].
    destruct (buildTags t) as [|a rest].
    - rewrite app_nil_r. now apply breakAt_notin.
    - now apply breakAt_app. }
  rewrite Hbreak.
  assert (Hbreak2 : semver.breakAt "-" (coreText t ++ prereleaseText t) =
                    (coreText t, semver.m4 (groupsOf t))).
  { unfold prereleaseText, groupsOf. cbn [semver.m4].
    destruct (prereleaseTags t) as [|a rest].
    - rewrite app_nil_r. now apply breakAt_notin.
    - now apply breakAt_app. }
  rewrite Hbreak2.
  assert (Hsplit : semver.split "." (coreText t) = [majorText t; minorText t; patchText t]).
  { unfold coreText. rewrite !split_app by (now apply Hdot).
    rewrite split_notin by (now apply Hdot). reflexivity. }
  rewrite Hsplit. rewrite !isNumericIdentifier_isNumeral, HM, Hm, Hp.
  assert (Hcheck4 : semver.optionForall
            (fun p => forallb semver.isPrereleaseIdentifier (semver.split "." p))
            (semver.m4 (groupsOf t)) = true).
  { unfold groupsOf. cbn [semver.m4].
    destruct (prereleaseTags t) as [|a rest] eqn:E; [reflexivity|].
    cbn [semver.optionForall].
    rewrite split_joinDots;
      [| discriminate | exact (tags_no_dot _ _ isPrereleaseTag_characters Hpre)].
    rewrite (forallb_ext_eq _ _ _ isPrereleaseIdentifier_isPrereleaseTag). exact Hpre. }
  assert (Hcheck5 : semver.optionForall
            (fun p => forallb semver.isBuildIdentifier (semver.split "." p))
            (semver.m5 (groupsOf t)) = true).
  { unfold groupsOf. cbn [semver.m5].
    destruct (buildTags t) as [|a rest] eqn:E; [reflexivity|].
    cbn [semver.optionForall].
    rewrite split_joinDots;
      [| discriminate | exact (tags_no_dot _ _ isBuildTag_characters Hbuild)].
    rewrite (forallb_ext_eq _ _ _ isBuildIdentifier_isBuildTag). exact Hbuild. }
  rewrite Hcheck4, Hcheck5. reflexivity.
Qed.

Lemma length_list_ascii_of_string (v : string) :
  length (list_ascii_of_string v) = String.length v.
Proof. induction v as [|c v IH]; simpl; [reflexivity | now rewrite IH]. Qed.

Lemma wellFormed_inv (t : VersionText) :
  wellFormed t = true ->
  forallb isSpace (leadingSpace t) = true
  /\ forallb isSpace (trailingSpace t) = true
  /\ isNumeral (majorText t) = true
  /\ isNumeral (minorText t) = true
  /\ isNumeral (patchText t) = true
  /\ (numeralValue (majorText t) <= 9007199254740991)%N
  /\ (numeralValue (minorText t) <= 9007199254740991)%N
  /\ (numeralValue (patchText t) <= 9007199254740991)%N
  /\ forallb isPrereleaseTag (prereleaseTags t) = true
  /\ forallb isBuildTag (buildTags t) = true
  /\ length (text t) <= 256.
Proof.
  intros H. unfold wellFormed in H.
  repeat (apply andb_true_iff in H; destruct H as [H ?]).
  repeat match goal with
         | E : (_ <=? _)%N = true |- _ => apply N.leb_le in E
         | E : Nat.leb _ _ = true |- _ => apply Nat.leb_le in E
         end.
  repeat split; assumption.
Qed.

Lemma bodyText_characters t :
  isNumeral (majorText t) = true -> isNumeral (minorText t) = true ->
  isNumeral (patchText t) = true ->
  forallb isPrereleaseTag (prereleaseTags t) = true ->
  forallb isBuildTag (buildTags t) = true ->
  bodyText t <> [] /\ forallb (oneOf bodyCharacters) (bodyText t) = true.
Proof.
  intros HM Hm Hp Hpre Hbuild. split.
  - unfold bodyText, coreText. destruct (letterV t); [discriminate|].
    destruct (majorText t); [discriminate HM | discriminate].
  - unfold bodyText. rewrite !forallb_app.
    rewrite (buildText_characters t Hbuild).
    rewrite (forallb_impl _ _ _ dotted_bodyCharacter (prereleaseText_characters t Hpre)).
    rewrite (forallb_impl _ _ _ dotted_bodyCharacter
               (forallb_impl _ _ _ number_dottedCharacter
                  (coreText_characters t HM Hm Hp))).
    now destruct (letterV t).
Qed.

(** Every well-formed version text parses, to the numbers it shows. *)
Lemma SemVer_new_text (t : VersionText) (v : string) :
  wellFormed t = true ->
  list_ascii_of_string v = text t ->
  semver.SemVer_new v = Ok (parsed t).
Proof.
  intros Hwf Hv.
  destruct (wellFormed_inv t Hwf)
    as (Hlead & Htrail & HM & Hm & Hp & HvM & Hvm & Hvp & Hpre & Hbuild & Hlen).
  unfold semver.SemVer_new.
  rewrite <- length_list_ascii_of_string, Hv.
  destruct (Nat.ltb_spec semver.MAX_LENGTH (length (text t))) as [Hlong|_];
    [unfold semver.MAX_LENGTH in Hlong; lia|].
  destruct (bodyText_characters t HM Hm Hp Hpre Hbuild) as [Hne Hbody].
  unfold text at 1.
  rewrite trim_body;
    [ | now rewrite (forallb_ext_eq _ _ _ isWhiteSpace_isSpace)
      | now rewrite (forallb_ext_eq _ _ _ isWhiteSpace_isSpace)
      | exact Hne
      | exact (forallb_impl _ _ _ bodyCharacter_nonspace Hbody) ].
  rewrite (matchFull_bodyText t HM Hm Hp Hpre Hbuild).
  cbn [groupsOf semver.m1 semver.m2 semver.m3 semver.m4 semver.m5].
  rewrite !toNumber_safe by assumption.
  unfold semver.MAX_SAFE_INTEGER.
  destruct (N.ltb_spec 9007199254740991 (numeralValue (majorText t))); [lia|].
  destruct (N.ltb_spec 9007199254740991 (numeralValue (minorText t))); [lia|].
  destruct (N.ltb_spec 9007199254740991 (numeralValue (patchText t))); [lia|].
  unfold parsed. f_equal. f_equal.
  - destruct (prereleaseTags t) as [|a rest] eqn:E; [reflexivity|].
    rewrite split_joinDots;
      [reflexivity | discriminate | exact (tags_no_dot _ _ isPrereleaseTag_characters Hpre)].
  - destruct (buildTags t) as [|a rest] eqn:E; [reflexivity|].
    rewrite split_joinDots;
      [reflexivity | discriminate | exact (tags_no_dot _ _ isBuildTag_characters Hbuild)].
Qed.

Lemma matchFull_inv (body : list ascii) (m : semver.Groups) :
  semver.matchFull body = Some m ->
  exists v tags btags,
    body = bodyText {| leadingSpace := []; letterV := v;
                       majorText := semver.m1 m; minorText := semver.m2 m;
                       patchText := semver.m3 m;
                       prereleaseTags := tags; buildTags := btags;
                       trailingSpace := [] |}
    /\ isNumeral (semver.m1 m) = true
    /\ isNumeral (semver.m2 m) = true
    /\ isNumeral (semver.m3 m) = true
    /\ forallb isPrereleaseTag tags = true
    /\ forallb isBuildTag btags = true
    /\ match semver.m4 m with
       | None => []
       | Some p => semver.split "." p
       end = tags
    /\ match semver.m5 m with
       | None => []
       | Some b => semver.split "." b
       end = btags.
Proof.
  unfold semver.matchFull.
  set (rest := match body with
               | c :: s' => if Ascii.eqb c "v" then s' else body
               | [] => body
               end).
  assert (Hbody : exists v : bool, body = (if v then ["v"%char] else []) ++ rest).
  { unfold rest. destruct body as [|c s']; [now exists false|].
    destruct (Ascii.eqb_spec c "v") as [->|_]; [now exists true | now exists false]. }
  destruct Hbody as (v & Hbody).
  destruct (semver.breakAt "+" rest) as [s1 build] eqn:Eplus.
  destruct (semver.breakAt "-" s1) as [main pre] eqn:Edash.
  destruct (semver.split "." main) as [|a [|b [|c [|d l]]]] eqn:Esplit; try discriminate.
  destruct (semver.isNumericIdentifier a && semver.isNumericIdentifier b
            && semver.isNumericIdentifier c
            && semver.optionForall
                 (fun p => forallb semver.isPrereleaseIdentifier (semver.split "." p)) pre
            && semver.optionForall
                 (fun p => forallb semver.isBuildIdentifier (semver.split "." p)) build)
    eqn:Echeck; [|discriminate].
  intros H. injection H as <-.
  cbn [semver.m1 semver.m2 semver.m3 semver.m4 semver.m5].
  repeat (apply andb_true_iff in Echeck; let E := fresh "Echeck" in destruct Echeck as [Echeck E]).
  rewrite isNumericIdentifier_isNumeral in *.
  apply breakAt_spec in Eplus. destruct Eplus as [_ Hrest].
  apply breakAt_spec in Edash. destruct Edash as [_ Hs1].
  pose proof (joinDots_split main) as [Hmain _]. rewrite Esplit in Hmain.
  exists v,
    (match pre with None => [] | Some p => semver.split "." p end),
    (match build with None => [] | Some p => semver.split "." p end).
  split; [|repeat split; try assumption].
  - rewrite Hbody, Hrest, Hs1, <- Hmain. unfold bodyText, coreText, prereleaseText, buildText.
    cbn [letterV majorText minorText patchText prereleaseTags buildTags].
    f_equal. rewrite (app_assoc (a ++ "."%char :: b ++ "."%char :: c)).
    f_equal; [f_equal|].
    + destruct pre as [p|]; [|reflexivity].
      pose proof (joinDots_split p) as [Hp _].
      destruct (split_cons "." p) as (x & xs & E). rewrite E in *. now rewrite Hp.
    + destruct build as [p|]; [|reflexivity].
      pose proof (joinDots_split p) as [Hp _].
      destruct (split_cons "." p) as (x & xs & E). rewrite E in *. now rewrite Hp.
  - destruct pre as [p|]; [|reflexivity]. cbn [semver.optionForall] in *.
    now rewrite <- (forallb_ext_eq _ _ _ isPrereleaseIdentifier_isPrereleaseTag).
  - destruct build as [p|]; [|reflexivity]. cbn [semver.optionForall] in *.
    now rewrite <- (forallb_ext_eq _ _ _ isBuildIdentifier_isBuildTag).
Qed.

(** Every string that parses is a well-formed version text, and parses
    to the numbers it shows. *)
Lemma SemVer_new_Ok_text (v : string) (sv : semver.SemVer) :
  semver.SemVer_new v = Ok sv ->
  exists t, wellFormed t = true /\ list_ascii_of_string v = text t /\ sv = parsed t.
Proof.
  unfold semver.SemVer_new.
  destruct (Nat.ltb_spec semver.MAX_LENGTH (String.length v)) as [|Hlen]; [discriminate|].
  destruct (semver.matchFull (semver.trim (list_ascii_of_string v))) as [m|] eqn:Ematch;
    [|discriminate].
  destruct (semver.MAX_SAFE_INTEGER <? semver.toNumber (semver.m1 m))%N eqn:EM;
    [discriminate|].
  destruct (semver.MAX_SAFE_INTEGER <? semver.toNumber (semver.m2 m))%N eqn:Em;
    [discriminate|].
  destruct (semver.MAX_SAFE_INTEGER <? semver.toNumber (semver.m3 m))%N eqn:Ep;
    [discriminate|].
  intros H. injection H as <-.
  apply toNumber_bound in EM, Em, Ep.
  apply matchFull_inv in Ematch.
  destruct Ematch as (lv & tags & btags & Hbody & HM & Hm & Hp & Hpre & Hbuild & Htags & Hbtags).
  destruct (trim_decompose (list_ascii_of_string v)) as (ws1 & ws2 & H1 & H2 & Hv).
  rewrite (forallb_ext_eq _ _ ws1 isWhiteSpace_isSpace) in H1.
  rewrite (forallb_ext_eq _ _ ws2 isWhiteSpace_isSpace) in H2.
  exists {| leadingSpace := ws1; letterV := lv;
            majorText := semver.m1 m; minorText := semver.m2 m; patchText := semver.m3 m;
            prereleaseTags := tags; buildTags := btags; trailingSpace := ws2 |}.
  assert (Htext : list_ascii_of_string v =
                  text {| leadingSpace := ws1; letterV := lv;
                          majorText := semver.m1 m; minorText := semver.m2 m;
                          patchText := semver.m3 m;
                          prereleaseTags := tags; buildTags := btags;
                          trailingSpace := ws2 |}).
  { rewrite Hv at 1. rewrite Hbody. reflexivity. }
  split; [|split; [exact Htext|]].
  - unfold wellFormed.
    cbn [leadingSpace trailingSpace majorText minorText patchText prereleaseTags buildTags].
    rewrite H1, H2, HM, Hm, Hp, Hpre, Hbuild.
    apply N.leb_le in EM, Em, Ep. rewrite EM, Em, Ep.
    rewrite <- Htext, length_list_ascii_of_string.
    unfold semver.MAX_LENGTH in Hlen. apply Nat.leb_le in Hlen. now rewrite Hlen.
  - unfold parsed.
    cbn [majorText minorText patchText prereleaseTags buildTags].
    rewrite !toNumber_safe by assumption.
    rewrite <- Htags, <- Hbtags.
    destruct (semver.m4 m), (semver.m5 m); reflexivity.
Qed.

(** The order of version texts is the one [semver] compares by. *)
Lemma belowRelease_precedes (t : VersionText) (M m p : N) :
  belowRelease t M m p = true <-> precedesRelease (parsed t) M m p.
Proof.
  unfold belowRelease, precedesRelease, parsed. cbn [semver.major semver.minor
    semver.patch semver.prerelease].
  destruct (N.ltb_spec (numeralValue (majorText t)) M) as [L1|L1];
    destruct (N.eqb_spec (numeralValue (majorText t)) M) as [E1|E1];
    destruct (N.ltb_spec (numeralValue (minorText t)) m) as [L2|L2];
    destruct (N.eqb_spec (numeralValue (minorText t)) m) as [E2|E2];
    destruct (N.ltb_spec (numeralValue (patchText t)) p) as [L3|L3];
    destruct (N.eqb_spec (numeralValue (patchText t)) p) as [E3|E3];
    destruct (prereleaseTags t) as [|tag tags]; cbn [map orb andb];
    split; intros H; try reflexivity; try discriminate H; try lia;
    try (left; assumption);
    try (right; left; split; assumption);
    try (right; right; left; repeat split; assumption);
    try (right; right; right; repeat split; try assumption; discriminate);
    try (destruct H as [H|[H|[H|H]]];
         [ lia
         | destruct H; lia
         | destruct H as (? & ? & ?); lia
         | destruct H as (? & ? & ? & H); try lia; now contradiction H ]).
Qed.

Lemma lt_threshold_text (t : VersionText) (v : string) :
  wellFormed t = true ->
  list_ascii_of_string v = text t ->
  semver.lt v "0.17.0" = Ok (belowRelease t 0 17 0).
Proof.
  intros Hwf Htext. apply lt_threshold_Ok. exists (parsed t).
  split; [now apply SemVer_new_text|].
  apply Bool.eq_true_iff_eq. rewrite belowRelease_precedes, compare_threshold.
  reflexivity.
Qed.

Lemma lt_threshold_Ok_text (v : string) (b : bool) :
  semver.lt v "0.17.0" = Ok b -> isVersionText v.
Proof.
  intros H. apply lt_threshold_Ok in H. destruct H as (sv & Hsv & _).
  apply SemVer_new_Ok_text in Hsv. destruct Hsv as (t & Hwf & Htext & _).
  now exists t.
Qed.

Lemma lt_threshold_no_text (v : string) :
  ~ isVersionText v ->
  exists message, semver.lt v "0.17.0" = Throw (TypeError message).
Proof.
  intros Hno. destruct (semver.lt v "0.17.0") as [b|e] eqn:Hlt.
  - exfalso. apply Hno. now apply lt_threshold_Ok_text in Hlt.
  - pose proof (proj1 (lt_threshold_Throw v e) Hlt) as Hsv.
    apply SemVer_new_throws_TypeError in Hsv. destruct Hsv as (message & ->).
    now exists message.
Qed.

Lemma versionAccepted_Ok (helmRepository version : option string) :
  versionAccepted helmRepository version ->
  exists r, Karpenter.setHelmRepository (semverModule := node_semver)
              helmRepository version = Ok r.
Proof.
  intros H. destruct helmRepository as [r|]; [now exists r|].
  destruct H as [H|[->|(v & -> & t & Hwf & Htext)]].
  - now contradiction H.
  - simpl. eauto.
  - simpl. rewrite (lt_threshold_text t v Hwf Htext).
    destruct (belowRelease t 0 17 0); eauto.
Qed.


(** C1. With [props.helmRepository] undefined and [props.version] the
    string [v], a construction returns only when [v] is the text of a
    version.  For every reading of [v] as a version text: [semver.lt]
    answers, against '0.17.0', whether the text is strictly below the
    release 0.17.0; the construction runs as it does when the props give
    the repository, 'https://charts.karpenter.sh' for a text below that
    release and 'oci://public.ecr.aws/karpenter' for any other; and when
    it returns, that URL is the field [helmRepository] of the construct
    and the repository of the declared Helm chart. *)
Theorem helmRepository_by_version (scope : Path) (id : string) (props : KarpenterProps.t)
        (v : string) (app : App) :
  KarpenterProps.helmRepository props = None ->
  KarpenterProps.version props = Some v ->
  (forall k app',
      Karpenter.constructor (semverModule := node_semver) scope id props app = Ok (k, app') ->
      isVersionText v)
  /\ forall t,
       wellFormed t = true ->
       list_ascii_of_string v = text t ->
       let url := if belowRelease t 0 17 0
                  then "https://charts.karpenter.sh"
                  else "oci://public.ecr.aws/karpenter" in
       semver.lt v "0.17.0" = Ok (belowRelease t 0 17 0)
       /\ Karpenter.constructor (semverModule := node_semver) scope id props app =
          Karpenter.constructor (semverModule := node_semver) scope id
            (withHelmRepository props url) app
       /\ forall k app',
            Karpenter.constructor (semverModule := node_semver) scope id props app
            = Ok (k, app') ->
            Karpenter.helmRepository k = Some url
            /\ exists options,
                 findConstruct (Karpenter.chart k) (constructs app') =
                   Some (HelmChart (KarpenterProps.cluster props) options)
                 /\ HelmChartOptions.repository options = Some url.
Proof.
  intros Hr Hv. split.
  - intros k app' Hnew. apply constructor_Ok_inv in Hnew.
    destruct Hnew as (repo & Hrepo & _).
    rewrite Hr, Hv in Hrepo. simpl in Hrepo.
    destruct (semver.lt v "0.17.0") as [b|e] eqn:Hlt; [|discriminate Hrepo].
    now apply lt_threshold_Ok_text in Hlt.
  - intros t Hwf Htext url.
    pose proof (lt_threshold_text t v Hwf Htext) as Hlt.
    assert (Hset : Karpenter.setHelmRepository (semverModule := node_semver)
                     (KarpenterProps.helmRepository props) (KarpenterProps.version props)
                   = Ok url).
    { rewrite Hr, Hv. simpl. rewrite Hlt. subst url.
      now destruct (belowRelease t 0 17 0). }
    split; [exact Hlt|]. split.
    + unfold Karpenter.constructor. rewrite Hset. reflexivity.
    + intros k app' Hnew. apply constructor_Ok_inv in Hnew.
      destruct Hnew as (repo & Hrepo & Hids & -> & ->).
      rewrite Hset in Hrepo. injection Hrepo as <-.
      split; [reflexivity|].
      destruct (constructed_chart scope id props url app Hids) as (_ & _ & Hchart).
      eexists. split; [exact Hchart | reflexivity].
Qed.

(** ** Completion *)

(** Two constructions that differ in the repository and the version they
    settle on end alike. *)
Lemma constructor_sameOutcome {S S' : Semver} (scope : Path) (id : string)
      (props props' : KarpenterProps.t) (app : App) (r r' : string) :
  KarpenterProps.cluster props' = KarpenterProps.cluster props ->
  KarpenterProps.namespace props' = KarpenterProps.namespace props ->
  Karpenter.setHelmRepository (semverModule := S)
    (KarpenterProps.helmRepository props) (KarpenterProps.version props) = Ok r ->
  Karpenter.setHelmRepository (semverModule := S')
    (KarpenterProps.helmRepository props') (KarpenterProps.version props') = Ok r' ->
  sameOutcome (Karpenter.constructor (semverModule := S) scope id props app)
              (Karpenter.constructor (semverModule := S') scope id props' app).
Proof.
  intros Hc Hn Hr Hr'. unfold Karpenter.constructor.
  rewrite Hc, Hn, Hr, Hr'.
  unfold bind, liftResult, Cluster.addManifest, Cluster.addServiceAccount,
    Cluster.addHelmChart, Cluster.awsAuth_addRoleMapping, addDependency, ret,
    Construct_new.
  destruct (String.eqb (sanitizeId id) ""); [reflexivity|].
  destruct (findConstruct (scope ++ [sanitizeId id]) (constructs app)); [reflexivity|].
  cbn [constructs dependencies awsAuth sanitizeId String.eqb Ascii.eqb Bool.eqb
       String.append].
  repeat (match goal with
          | |- context [findConstruct ?p ?cs] =>
              destruct (findConstruct p cs); [reflexivity|]
          end;
          cbn [constructs dependencies awsAuth]).
  exact I.
Qed.

(** C3, as the code has it.  The constructor catches nothing, and it
    reads the version only to choose the repository.  With
    [props.helmRepository] undefined and a [props.version] that is not the
    text of a version, no construction returns: [semver.lt] throws a
    [TypeError], and the construction ends in it unless the construct tree
    has refused the id of the construct before.  A construction ends in a
    [TypeError] in no other case.  Among the versions the constructor has
    no reason to reject, the choice changes nothing about completion: with
    one or the other the construction returns, or ends in the same
    exception. *)
Theorem constructor_failure_by_version (scope : Path) (id : string)
        (props : KarpenterProps.t) (app : App) :
  (forall v,
      KarpenterProps.helmRepository props = None ->
      KarpenterProps.version props = Some v ->
      ~ isVersionText v ->
      (forall k app',
          Karpenter.constructor (semverModule := node_semver) scope id props app
          <> Ok (k, app'))
      /\ exists message,
           semver.lt v "0.17.0" = Throw (TypeError message)
           /\ (Karpenter.constructor (semverModule := node_semver) scope id props app
               = Throw (TypeError message)
               \/ Karpenter.constructor (semverModule := node_semver) scope id props app
                  = Throw EmptyIdError
               \/ Karpenter.constructor (semverModule := node_semver) scope id props app
                  = Throw (DuplicateNameError scope (sanitizeId id))))
  /\ (forall message,
        Karpenter.constructor (semverModule := node_semver) scope id props app
        = Throw (TypeError message) ->
        KarpenterProps.helmRepository props = None
        /\ exists v, KarpenterProps.version props = Some v
                     /\ ~ isVersionText v
                     /\ semver.lt v "0.17.0" = Throw (TypeError message))
  /\ (forall version',
        versionAccepted (KarpenterProps.helmRepository props)
          (KarpenterProps.version props) ->
        versionAccepted (KarpenterProps.helmRepository props) version' ->
        sameOutcome
          (Karpenter.constructor (semverModule := node_semver) scope id props app)
          (Karpenter.constructor (semverModule := node_semver) scope id
             (withVersion props version') app)).
Proof.
  split; [|split].
  - intros v Hr Hv Hno.
    destruct (lt_threshold_no_text v Hno) as (message & Hlt).
    assert (Hset : Karpenter.setHelmRepository (semverModule := node_semver)
                     (KarpenterProps.helmRepository props) (KarpenterProps.version props)
                   = Throw (TypeError message))
      by (rewrite Hr, Hv; simpl; now rewrite Hlt).
    split.
    + intros k app' Hnew. apply constructor_Ok_inv in Hnew.
      destruct Hnew as (repo & Hrepo & _). rewrite Hset in Hrepo. discriminate Hrepo.
    + exists message. split; [exact Hlt|].
      unfold Karpenter.constructor. rewrite Hset.
      destruct (Construct_new scope id KarpenterConstruct app) as [[this app0]|e] eqn:Hsuper.
      * left. apply bind_Throw. right. exists this, app0. split; [exact Hsuper|].
        apply bind_Throw. left. reflexivity.
      * pose proof (Construct_new_Throw _ _ _ _ _ Hsuper) as [-> | ->].
        -- right. left. apply bind_Throw. left. exact Hsuper.
        -- right. right. apply bind_Throw. left. exact Hsuper.
  - intros message H. apply constructor_TypeError in H.
    destruct (KarpenterProps.helmRepository props) as [r|]; [discriminate H|].
    split; [reflexivity|].
    destruct (KarpenterProps.version props) as [v|]; [|discriminate H].
    exists v. split; [reflexivity|]. simpl in H.
    destruct (semver.lt v "0.17.0") as [[|]|e] eqn:Hlt; try discriminate H.
    injection H as ->. split; [|reflexivity].
    intros (t & Hwf & Htext).
    rewrite (lt_threshold_text t v Hwf Htext) in Hlt. discriminate Hlt.
  - intros version' Hacc Hacc'.
    apply versionAccepted_Ok in Hacc, Hacc'.
    destruct Hacc as (r & Hr). destruct Hacc' as (r' & Hr').
    now apply (constructor_sameOutcome scope id props (withVersion props version') app r r').
Qed.

(** ** Version texts at concrete strings *)

Example v0_17_0_is_a_version_text :
  wellFormed v0_17_0 = true
  /\ list_ascii_of_string "v0.17.0" = text v0_17_0
  /\ belowRelease v0_17_0 0 17 0 = false.
Proof. repeat split; reflexivity. Qed.

Example v0_6_0_is_below_the_threshold :
  let t := {| leadingSpace := []; letterV := true;
              majorText := ["0"%char]; minorText := ["6"%char]; patchText := ["0"%char];
              prereleaseTags := []; buildTags := []; trailingSpace := [] |} in
  wellFormed t = true
  /\ list_ascii_of_string "v0.6.0" = text t
  /\ belowRelease t 0 17 0 = true.
Proof. repeat split; reflexivity. Qed.

Example prerelease_is_below_its_release :
  let t := {| leadingSpace := []; letterV := false;
              majorText := ["0"%char]; minorText := ["1"%char; "7"%char];
              patchText := ["0"%char];
              prereleaseTags := [["r"%char; "c"%char]; ["1"%char]];
              buildTags := []; trailingSpace := [] |} in
  wellFormed t = true
  /\ list_ascii_of_string "0.17.0-rc.1" = text t
  /\ belowRelease t 0 17 0 = true.
Proof. repeat split; reflexivity. Qed.

Example latest_is_no_version_text : ~ isVersionText "latest".
Proof.
  intros (t & Hwf & Htext).
  pose proof (SemVer_new_text t "latest" Hwf Htext) as H.
  assert (E : semver.SemVer_new "latest" = Throw (TypeError "Invalid Version: latest"))
    by reflexivity.
  rewrite E in H. discriminate H.
Qed.

Example two_numbers_are_no_version_text : ~ isVersionText "0.17".
Proof.
  intros (t & Hwf & Htext).
  pose proof (SemVer_new_text t "0.17" Hwf Htext) as H.
  assert (E : semver.SemVer_new "0.17" = Throw (TypeError "Invalid Version: 0.17"))
    by reflexivity.
  rewrite E in H. discriminate H.
Qed.

(** ** [semver.lt] at concrete versions *)

Example lt_v0_6_0 : semver.lt "v0.6.0" "0.17.0" = Ok true.
Proof. reflexivity. Qed.

Example lt_v0_17_0 : semver.lt "v0.17.0" "0.17.0" = Ok false.
Proof. reflexivity. Qed.

Example lt_0_17_1 : semver.lt "0.17.1" "0.17.0" = Ok false.
Proof. reflexivity. Qed.

Example lt_prerelease_of_threshold : semver.lt "0.17.0-rc.1" "0.17.0" = Ok true.
Proof. reflexivity. Qed.

Example lt_trims_and_ignores_build : semver.lt " v0.16.9+build.5 " "0.17.0" = Ok true.
Proof. reflexivity. Qed.

Example lt_prerelease_numeric_before_alphanumeric :
  semver.lt "1.0.0-alpha.1" "1.0.0-alpha.beta" = Ok true.
Proof. reflexivity. Qed.

Example lt_prerelease_numbers_by_value : semver.lt "1.0.0-2" "1.0.0-10" = Ok true.
Proof. reflexivity. Qed.

Example lt_prerelease_shorter_first : semver.lt "1.0.0-alpha" "1.0.0-alpha.1" = Ok true.
Proof. reflexivity. Qed.

Example lt_latest : semver.lt "latest" "0.17.0" = Throw (TypeError "Invalid Version: latest").
Proof. reflexivity. Qed.

Example lt_two_numbers : semver.lt "0.17" "0.17.0" = Throw (TypeError "Invalid Version: 0.17").
Proof. reflexivity. Qed.

Example lt_leading_zero :
  semver.lt "0.017.0" "0.17.0" = Throw (TypeError "Invalid Version: 0.017.0").
Proof. reflexivity. Qed.

Example lt_equals_sign :
  semver.lt "=0.6.0" "0.17.0" = Throw (TypeError "Invalid Version: =0.6.0").
Proof. reflexivity. Qed.

Example lt_unsafe_integer :
  semver.lt "9007199254740992.0.0" "0.17.0" = Throw (TypeError "Invalid major version").
Proof. reflexivity. Qed.

(** ** The test suite, and runs at concrete inputs *)

Example installs_latest_version_by_default :
  option_map HelmChartOptions.version (chartOf (testKarpenter None None None)) = Some None.
Proof. reflexivity. Qed.

Example installs_desired_version :
  option_map HelmChartOptions.version (chartOf (testKarpenter None (Some "v0.6.0") None))
  = Some (Some "v0.6.0").
Proof. reflexivity. Qed.

Example installs_in_different_namespace :
  option_map HelmChartOptions.namespace (chartOf (testKarpenter (Some "kar-penter") None None))
  = Some (Some "kar-penter").
Proof. reflexivity. Qed.

Example allows_custom_helmRepository :
  option_map HelmChartOptions.repository
    (chartOf (testKarpenter None None (Some "oci://repository.test.url")))
  = Some (Some "oci://repository.test.url").
Proof. reflexivity. Qed.

Example allows_custom_helmRepository_and_version :
  let chart := chartOf (testKarpenter None (Some "v0.6.0") (Some "oci://repository.test.url")) in
  option_map HelmChartOptions.repository chart = Some (Some "oci://repository.test.url")
  /\ option_map HelmChartOptions.version chart = Some (Some "v0.6.0").
Proof. split; reflexivity. Qed.

Example installs_from_old_URL_below_v0_17_0 :
  option_map HelmChartOptions.repository (chartOf (testKarpenter None (Some "v0.6.0") None))
  = Some (Some "https://charts.karpenter.sh").
Proof. reflexivity. Qed.

Example installs_from_new_URL_from_v0_17_0 :
  option_map HelmChartOptions.repository (chartOf (testKarpenter None (Some "v0.17.0") None))
  = Some (Some "oci://public.ecr.aws/karpenter").
Proof. reflexivity. Qed.

Example prerelease_of_threshold_uses_old_URL :
  option_map HelmChartOptions.repository (chartOf (testKarpenter None (Some "0.17.0-rc.1") None))
  = Some (Some "https://charts.karpenter.sh").
Proof. reflexivity. Qed.

Example testApp_accepts_the_ids :
  idsAvailable testScope "Karpenter" testCluster testApp = true.
Proof. reflexivity. Qed.

(** The id 'namespace' is taken by the Namespace manifest of the
    constructor, and an id is taken once a provisioner has it. *)
Example addProvisioner_namespace_throws :
  match testKarpenter None None None with
  | Ok (k, app) => Karpenter.addProvisioner k "namespace" (JObject []) app
  | Throw e => Throw e
  end = Throw (DuplicateNameError testCluster "manifest-namespace").
Proof. reflexivity. Qed.

Example addProvisioner_twice_throws :
  match testKarpenter None None None with
  | Ok (k, app) => addProvisioners k [("default", JObject []); ("default", JObject [])] app
  | Throw e => Throw e
  end = Throw (DuplicateNameError testCluster "manifest-default").
Proof. reflexivity. Qed.

(** C3 as the claim has it fails: with [props.helmRepository] undefined
    and the version 'latest', on a tree that accepts the ids, the
    constructor ends in the [TypeError] of [semver.lt]. *)
Lemma constructor_throws_on_unparsable_version :
  idsAvailable testScope "Karpenter" testCluster testApp = true
  /\ Karpenter.constructor (semverModule := node_semver) testScope "Karpenter"
       (testProps None (Some "latest") None) testApp
     = Throw (TypeError "Invalid Version: latest").
Proof. split; reflexivity. Qed.

Example testKarpenter_default :
  testKarpenter None None None = Ok (defaultKarpenter, defaultApp).
Proof. vm_compute. reflexivity. Qed.

Lemma constructor_failure_by_version_witness :
  ~ isVersionText "latest"
  /\ forall k app',
       Karpenter.constructor (semverModule := node_semver) testScope "Karpenter"
         (testProps None (Some "latest") None) testApp <> Ok (k, app').
Proof.
  assert (Hno : ~ isVersionText "latest") by exact latest_is_no_version_text.
  assert (Hr : KarpenterProps.helmRepository (testProps None (Some "latest") None) = None)
    by reflexivity.
  assert (Hv : KarpenterProps.version (testProps None (Some "latest") None)
               = Some "latest")
    by reflexivity.
  split; [exact Hno|].
  pose proof (constructor_failure_by_version testScope "Karpenter"
                (testProps None (Some "latest") None) testApp) as [H _].
  exact (proj1 (H "latest" Hr Hv Hno)).
Defined.

Lemma helmRepository_by_version_witness :
  let props := testProps None (Some "v0.17.0") None in
  let k := constructed testScope "Karpenter" props "oci://public.ecr.aws/karpenter" in
  let app' := afterConstruction testScope "Karpenter" props "oci://public.ecr.aws/karpenter"
                testApp in
  wellFormed v0_17_0 = true
  /\ list_ascii_of_string "v0.17.0" = text v0_17_0
  /\ Karpenter.constructor (semverModule := node_semver) testScope "Karpenter" props testApp
     = Ok (k, app')
  /\ semver.lt "v0.17.0" "0.17.0" = Ok false
  /\ Karpenter.helmRepository k = Some "oci://public.ecr.aws/karpenter".
Proof.
  intros props k app'.
  assert (Hr : KarpenterProps.helmRepository props = None) by reflexivity.
  assert (Hv : KarpenterProps.version props = Some "v0.17.0") by reflexivity.
  assert (Hwf : wellFormed v0_17_0 = true) by (vm_compute; reflexivity).
  assert (Htext : list_ascii_of_string "v0.17.0" = text v0_17_0)
    by (vm_compute; reflexivity).
  assert (Hnew : Karpenter.constructor (semverModule := node_semver) testScope "Karpenter"
                   props testApp = Ok (k, app'))
    by (vm_compute; reflexivity).
  pose proof (helmRepository_by_version testScope "Karpenter" props "v0.17.0" testApp
                Hr Hv) as [_ H].
  specialize (H v0_17_0 Hwf Htext). destruct H as (Hlt & _ & Hk).
  destruct (Hk k app' Hnew) as [Hrepo _].
  split; [exact Hwf|]. split; [exact Htext|]. split; [exact Hnew|].
  split; [exact Hlt | exact Hrepo].
Defined.

Lemma dependencies_in_order_witness :
  let props := testProps None None None in
  let calls := [("default", JObject []); ("spot", JObject [])] in
  let app2 := afterProvisioner defaultKarpenter "spot" (JObject [])
                (afterProvisioner defaultKarpenter "default" (JObject []) defaultApp) in
  Karpenter.constructor (semverModule := node_semver) testScope "Karpenter" props testApp
  = Ok (defaultKarpenter, defaultApp)
  /\ addProvisioners defaultKarpenter calls defaultApp = Ok (tt, app2)
  /\ In (testCluster ++ ["karpenter"], testCluster ++ ["manifest-namespace"])
        (dependencies app2)
  /\ In (Karpenter.chart defaultKarpenter, testCluster ++ ["manifest-namespace"])
        (dependencies app2)
  /\ In (testCluster ++ ["manifest-spot"], Karpenter.chart defaultKarpenter)
        (dependencies app2).
Proof.
  intros props calls app2.
  assert (Hnew : Karpenter.constructor (semverModule := node_semver) testScope "Karpenter"
                   props testApp = Ok (defaultKarpenter, defaultApp))
    by (vm_compute; reflexivity).
  assert (Hadd : addProvisioners defaultKarpenter calls defaultApp = Ok (tt, app2))
    by (vm_compute; reflexivity).
  split; [exact Hnew|]. split; [exact Hadd|].
  pose proof (dependencies_in_order (S := node_semver) testScope "Karpenter" props testApp
                defaultKarpenter defaultApp calls app2 Hnew Hadd) as H.
  destruct H as (_ & _ & _ & Hsa & Hchart & Hprovisioners).
  split; [exact Hsa|]. split; [exact Hchart|].
  apply (Hprovisioners "spot" (JObject [])). right. left. reflexivity.
Defined.

Lemma resources_attach_to_given_cluster_witness :
  let props := testProps None None None in
  let calls := [("default", JObject [])] in
  let app2 := afterProvisioner defaultKarpenter "default" (JObject []) defaultApp in
  Karpenter.constructor (semverModule := node_semver) testScope "Karpenter" props testApp
  = Ok (defaultKarpenter, defaultApp)
  /\ addProvisioners defaultKarpenter calls defaultApp = Ok (tt, app2)
  /\ Karpenter.cluster defaultKarpenter = testCluster
  /\ kubernetesResourcesOf ["test-stack"; "othercluster"] app2
     = kubernetesResourcesOf ["test-stack"; "othercluster"] testApp.
Proof.
  intros props calls app2.
  assert (Hnew : Karpenter.constructor (semverModule := node_semver) testScope "Karpenter"
                   props testApp = Ok (defaultKarpenter, defaultApp))
    by (vm_compute; reflexivity).
  assert (Hadd : addProvisioners defaultKarpenter calls defaultApp = Ok (tt, app2))
    by (vm_compute; reflexivity).
  split; [exact Hnew|]. split; [exact Hadd|].
  pose proof (resources_attach_to_given_cluster (S := node_semver) testScope "Karpenter"
                props testApp defaultKarpenter defaultApp calls app2 Hnew Hadd) as H.
  destruct H as (Hcluster & _ & _ & Hother).
  split; [exact Hcluster|].
  apply (Hother ["test-stack"; "othercluster"]). discriminate.
Defined.

Lemma props_pass_through_witness :
  let props := testProps (Some "kar-penter") (Some "v0.6.0")
                 (Some "oci://repository.test.url") in
  let k := constructed testScope "Karpenter" props "oci://repository.test.url" in
  let app' := afterConstruction testScope "Karpenter" props "oci://repository.test.url"
                testApp in
  Karpenter.constructor (semverModule := node_semver) testScope "Karpenter" props testApp
  = Ok (k, app')
  /\ exists options,
       findConstruct (Karpenter.chart k) (constructs app') =
         Some (HelmChart testCluster options)
       /\ HelmChartOptions.version options = Some "v0.6.0"
       /\ HelmChartOptions.namespace options = Some "kar-penter"
       /\ HelmChartOptions.repository options = Some "oci://repository.test.url".
Proof.
  intros props k app'.
  assert (Hnew : Karpenter.constructor (semverModule := node_semver) testScope "Karpenter"
                   props testApp = Ok (k, app'))
    by (vm_compute; reflexivity).
  split; [exact Hnew|].
  pose proof (props_pass_through (S := node_semver) testScope "Karpenter" props
                testApp k app' Hnew) as H.
  destruct H as (options & Hchart & Hversion & Hnamespace & Hrepository).
  exists options. split; [exact Hchart|].
  split; [exact (proj1 (Hversion "v0.6.0" eq_refl))|].
  split; [exact (proj1 (Hnamespace "kar-penter" eq_refl))|].
  exact (proj1 (Hrepository "oci://repository.test.url" eq_refl)).
Defined.

Lemma constructor_declares_fixed_resources_witness :
  let props := testProps None None None in
  Karpenter.constructor (semverModule := node_semver) testScope "Karpenter" props testApp
  = Ok (defaultKarpenter, defaultApp)
  /\ length (constructs defaultApp) = 7 + length (constructs testApp)
  /\ length (awsAuth defaultApp) = 1 + length (awsAuth testApp).
Proof.
  intros props.
  assert (Hnew : Karpenter.constructor (semverModule := node_semver) testScope "Karpenter"
                   props testApp = Ok (defaultKarpenter, defaultApp))
    by (vm_compute; reflexivity).
  split; [exact Hnew|].
  pose proof (constructor_declares_fixed_resources (S := node_semver) testScope "Karpenter" props
                testApp defaultKarpenter defaultApp Hnew) as H.
  destruct H as (policy & chartOptions & Hconstructs & _ & _ & _ & HawsAuth).
  split.
  - rewrite Hconstructs, length_app. apply Nat.add_comm.
  - rewrite HawsAuth, length_app. apply Nat.add_comm.
Defined.


Lemma explicit_helmRepository_wins_witness :
  let props := testProps None (Some "not a version") (Some "oci://repository.test.url") in
  KarpenterProps.helmRepository props = Some "oci://repository.test.url"
  /\ exists k app',
       Karpenter.constructor (semverModule := node_semver) testScope "Karpenter" props
         testApp = Ok (k, app')
       /\ Karpenter.helmRepository k = Some "oci://repository.test.url".
Proof.
  intros props.
  assert (Hr : KarpenterProps.helmRepository props = Some "oci://repository.test.url")
    by reflexivity.
  split; [exact Hr|].
  pose proof (explicit_helmRepository_wins node_semver testScope "Karpenter" props testApp
                "oci://repository.test.url" Hr) as H.
  destruct H as (_ & _ & _ & Hfield & Hreturns).
  assert (Hids : idsAvailable testScope "Karpenter" (KarpenterProps.cluster props) testApp
                 = true)
    by (vm_compute; reflexivity).
  destruct (Hreturns Hids) as (k & app' & Hrun).
  exists k, app'. split; [exact Hrun|].
  exact (proj1 (Hfield k app' Hrun)).
Defined.

Lemma addProvisioner_adds_one_manifest_witness :
  let spec := JObject [("ttlSecondsAfterEmpty", JNumber 30)] in
  let app' := afterProvisioner defaultKarpenter "default" spec defaultApp in
  Karpenter.addProvisioner defaultKarpenter "default" spec defaultApp = Ok (tt, app')
  /\ length (constructs app') = S (length (constructs defaultApp))
  /\ awsAuth app' = awsAuth defaultApp.
Proof.
  intros spec app'.
  assert (Hadd : Karpenter.addProvisioner defaultKarpenter "default" spec defaultApp
                 = Ok (tt, app'))
    by (vm_compute; reflexivity).
  split; [exact Hadd|].
  pose proof (addProvisioner_adds_one_manifest defaultKarpenter "default" spec defaultApp
                app' Hadd) as H.
  destruct H as (m & metadata & Hconstructs & _ & _ & _ & _ & _ & _ & _ & HawsAuth & _).
  split.
  - rewrite Hconstructs, length_app. apply Nat.add_1_r.
  - exact HawsAuth.
Defined.

(** * Further properties of the construct *)

(** ** Provisioner ids *)

Lemma addProvisioner_run (k : Karpenter.t) (id : string) (spec : Json) (app : App) :
  Karpenter.addProvisioner k id spec app =
  match findConstruct (provisionerPath k id) (constructs app) with
  | Some _ =>
      Throw (DuplicateNameError (Karpenter.cluster k) ("manifest-" ++ sanitizeId id))
  | None => Ok (tt, afterProvisioner k id spec app)
  end.
Proof.
  unfold Karpenter.addProvisioner, Cluster.addManifest, bind, Construct_new, provisionerPath.
  simpl. destruct (findConstruct _ _); reflexivity.
Qed.

Lemma findConstruct_None_notin (p : Path) (cs : list (Path * Resource)) :
  findConstruct p cs = None <-> ~ In p (map fst cs).
Proof.
  induction cs as [|[q r] cs IH]; simpl.
  - tauto.
  - destruct (pathEqb q p) eqn:E.
    + apply pathEqb_eq in E. split; [discriminate | intros H; exfalso; apply H; now left].
    + apply pathEqb_false in E. rewrite IH. tauto.
Qed.

Lemma provisionerPath_inj (k : Karpenter.t) (a b : string) :
  provisionerPath k a = provisionerPath k b <-> sanitizeId a = sanitizeId b.
Proof.
  unfold provisionerPath. split.
  - intros H. apply app_inv_head in H. injection H as H. exact H.
  - now intros ->.
Qed.

(** X1. Once a construction has returned, whatever provisioners were
    added since, [addProvisioner('namespace', spec)] throws: the Namespace
    manifest of the constructor holds the name 'manifest-namespace' in the
    cluster. *)
Theorem provisioner_id_namespace_is_taken {S : Semver} (scope : Path) (id : string)
        (props : KarpenterProps.t) (app : App) (k : Karpenter.t) (app1 : App)
        (calls : list (string * Json)) (app2 : App) (spec : Json) :
  Karpenter.constructor scope id props app = Ok (k, app1) ->
  addProvisioners k calls app1 = Ok (tt, app2) ->
  Karpenter.addProvisioner k "namespace" spec app2 =
  Throw (DuplicateNameError (KarpenterProps.cluster props) "manifest-namespace").
Proof.
  intros Hnew Hadd. apply constructor_Ok_inv in Hnew.
  destruct Hnew as (repo & _ & Hids & -> & ->).
  destruct (constructed_chart scope id props repo app Hids) as (Hns & _ & _).
  apply addProvisioners_Ok_inv in Hadd. destruct Hadd as (Hc & _ & _).
  rewrite addProvisioner_run. unfold provisionerPath. simpl.
  rewrite Hc. rewrite (findConstruct_app_Some _ _ _ _ Hns). reflexivity.
Qed.

(** X2. A sequence of [addProvisioner] calls returns exactly when the ids,
    after the replacement of each '/' by '--', are pairwise different and
    no construct of the app sits at the path of one of the manifests. *)
Theorem provisioner_ids_must_differ (k : Karpenter.t) (calls : list (string * Json))
        (app : App) :
  (exists app', addProvisioners k calls app = Ok (tt, app'))
  <-> NoDup (map (fun c => sanitizeId (fst c)) calls)
      /\ forall c, In c calls ->
                   findConstruct (provisionerPath k (fst c)) (constructs app) = None.
Proof.
  revert app. induction calls as [|[pid spec] rest IH]; intros app; simpl.
  - split.
    + intros _. split; [constructor | intros c []].
    + intros _. now exists app.
  - split.
    + intros (app' & H). apply bind_Ok in H. destruct H as ([] & app1 & Hadd & Hrest).
      apply addProvisioner_Ok in Hadd. destruct Hadd as [Hfresh ->].
      assert (Hex : exists app', addProvisioners k rest (afterProvisioner k pid spec app)
                                 = Ok (tt, app')) by now exists app'.
      apply IH in Hex. destruct Hex as [Hnodup Hfree].
      assert (Hsplit : forall c, In c rest ->
                findConstruct (provisionerPath k (fst c)) (constructs app) = None
                /\ pathEqb (provisionerPath k pid) (provisionerPath k (fst c)) = false).
      { intros c Hc. apply Hfree in Hc. unfold afterProvisioner in Hc. simpl in Hc.
        now apply findConstruct_snoc_None in Hc. }
      split.
      * constructor; [|exact Hnodup].
        intros Hin. apply in_map_iff in Hin. destruct Hin as (c & Hc & Hin).
        destruct (Hsplit c Hin) as [_ Hneq]. apply pathEqb_false in Hneq.
        apply Hneq. apply provisionerPath_inj. now symmetry.
      * intros c [<-|Hc]; [exact Hfresh | now apply Hsplit].
    + intros [Hnodup Hfree]. inversion Hnodup as [|x l Hnotin Hnodup' E]; subst.
      assert (Hex : exists app', addProvisioners k rest (afterProvisioner k pid spec app)
                                 = Ok (tt, app')).
      { apply IH. split; [exact Hnodup'|].
        intros c Hc. unfold afterProvisioner. simpl.
        apply findConstruct_snoc_None. split; [apply Hfree; now right|].
        apply pathEqb_neq. intros Heq. apply provisionerPath_inj in Heq.
        apply Hnotin. apply in_map_iff. exists c. split; [now symmetry | exact Hc]. }
      destruct Hex as (app' & Hrest). exists app'.
      apply bind_Ok. exists tt, (afterProvisioner k pid spec app). split; [|exact Hrest].
      apply addProvisioner_Ok. split; [|reflexivity].
      apply (Hfree (pid, spec)). now left.
Qed.

(** ** One construct per cluster *)

(** X3. Once a construction has returned, a second construction for the
    same cluster never returns, whatever its scope, its id, its other props
    and the provisioners added in between: the names 'manifest-namespace',
    'karpenter' and 'chart-karpenter' of the cluster are taken. *)
Theorem second_construction_for_cluster_throws {S S' : Semver} (scope : Path) (id : string)
        (props : KarpenterProps.t) (app : App) (k : Karpenter.t) (app1 : App)
        (calls : list (string * Json)) (app2 : App)
        (scope' : Path) (id' : string) (props' : KarpenterProps.t) :
  Karpenter.constructor (semverModule := S) scope id props app = Ok (k, app1) ->
  addProvisioners k calls app1 = Ok (tt, app2) ->
  KarpenterProps.cluster props' = KarpenterProps.cluster props ->
  forall k' app',
    Karpenter.constructor (semverModule := S') scope' id' props' app2 <> Ok (k', app').
Proof.
  intros Hnew Hadd Hcluster k' app' Hsecond.
  apply constructor_Ok_inv in Hnew. destruct Hnew as (repo & _ & Hids & -> & ->).
  destruct (constructed_chart scope id props repo app Hids) as (Hns & _ & _).
  apply addProvisioners_Ok_inv in Hadd. destruct Hadd as (Hc & _ & _).
  apply constructor_Ok_inv in Hsecond. destruct Hsecond as (repo' & _ & Hids' & _).
  unfold idsAvailable, isFree in Hids'. simpl in Hids'.
  rewrite Hcluster, Hc in Hids'.
  rewrite (findConstruct_app_Some _ _ _ _ Hns) in Hids'.
  rewrite !andb_false_r in Hids'. simpl in Hids'.
  repeat rewrite ?andb_false_r, ?andb_false_l in Hids'. discriminate Hids'.
Qed.

(** X4. With the cluster itself as the scope, an id that becomes
    'manifest-namespace', 'karpenter' or 'chart-karpenter' never gives a
    construct: the construct takes that name in the cluster and then asks
    for it again for its manifest, its service account or its chart. *)
Theorem construct_named_like_its_resources_throws {S : Semver} (scope : Path) (id : string)
        (props : KarpenterProps.t) (app : App) :
  scope = KarpenterProps.cluster props ->
  In (sanitizeId id) clusterNames ->
  forall k app', Karpenter.constructor scope id props app <> Ok (k, app').
Proof.
  intros -> Hin k app' Hnew.
  apply constructor_Ok_inv in Hnew. destruct Hnew as (repo & _ & Hids & _).
  unfold idsAvailable in Hids. simpl in Hids.
  apply andb_true_iff in Hids. destruct Hids as [_ Hdistinct].
  destruct Hin as [E|[E|[E|[]]]]; rewrite <- E in Hdistinct;
    rewrite pathEqb_refl in Hdistinct; simpl in Hdistinct;
    repeat rewrite ?andb_false_r, ?andb_false_l in Hdistinct; discriminate Hdistinct.
Qed.

(** ** The order of the errors *)

Lemma sanitizeId_empty (id : string) : sanitizeId id = "" <-> id = "".
Proof.
  destruct id as [|c rest]; simpl; [tauto|].
  destruct (Ascii.eqb c "/"); split; discriminate.
Qed.

(** X5. The constructor names the construct before it looks at the props:
    with the empty id it throws the error of the empty id, and with an id
    whose name the scope already has it throws the error of the duplicate
    name, whatever the props are, also when the version would not parse. *)
Theorem constructor_checks_its_id_first {S : Semver} (scope : Path) (id : string)
        (props : KarpenterProps.t) (app : App) :
  (id = "" -> Karpenter.constructor scope id props app = Throw EmptyIdError)
  /\ (id <> "" ->
      forall r, findConstruct (scope ++ [sanitizeId id]) (constructs app) = Some r ->
                Karpenter.constructor scope id props app =
                Throw (DuplicateNameError scope (sanitizeId id))).
Proof.
  unfold Karpenter.constructor, bind, Construct_new. split.
  - intros ->. reflexivity.
  - intros Hid r Hr.
    destruct (String.eqb_spec (sanitizeId id) "") as [E|_].
    + exfalso. apply Hid. exact (proj1 (sanitizeId_empty id) E).
    + now rewrite Hr.
Qed.

(** ** Paths stay unique *)

Lemma NoDup_paths_snoc (p : Path) (r : Resource) (cs : list (Path * Resource)) :
  NoDup (map fst cs) ->
  findConstruct p cs = None ->
  NoDup (map fst (cs ++ [(p, r)])).
Proof.
  intros Hnodup Hfresh. apply findConstruct_None_notin in Hfresh.
  rewrite map_app. simpl.
  apply NoDup_app; [exact Hnodup | repeat constructor; intros [] |].
  intros x Hx [E|[]]. apply Hfresh. now rewrite E.
Qed.

Lemma addProvisioners_NoDup (k : Karpenter.t) (calls : list (string * Json))
      (app app' : App) :
  NoDup (map fst (constructs app)) ->
  addProvisioners k calls app = Ok (tt, app') ->
  NoDup (map fst (constructs app')).
Proof.
  revert app. induction calls as [|[pid spec] rest IH]; intros app Hnodup H; simpl in H.
  - unfold ret in H. now injection H as <-.
  - apply bind_Ok in H. destruct H as ([] & app1 & Hadd & Hrest).
    apply addProvisioner_Ok in Hadd. destruct Hadd as [Hfresh ->].
    apply (IH (afterProvisioner k pid spec app)); [|exact Hrest].
    unfold afterProvisioner. simpl. now apply NoDup_paths_snoc.
Qed.

(** X6. The construct tree keeps one construct per path: when no two
    constructs of the app share a path, none do after a construction and
    any calls of [addProvisioner] that returned. *)
Theorem construct_paths_stay_unique {S : Semver} (scope : Path) (id : string)
        (props : KarpenterProps.t) (app : App) (k : Karpenter.t) (app1 : App)
        (calls : list (string * Json)) (app2 : App) :
  NoDup (map fst (constructs app)) ->
  Karpenter.constructor scope id props app = Ok (k, app1) ->
  addProvisioners k calls app1 = Ok (tt, app2) ->
  NoDup (map fst (constructs app1)) /\ NoDup (map fst (constructs app2)).
Proof.
  intros Hnodup Hnew Hadd.
  assert (H1 : NoDup (map fst (constructs app1))).
  { unfold Karpenter.constructor in Hnew. invert_run Hnew.
    simpl in *.
    repeat (apply NoDup_paths_snoc; [|assumption]).
    exact Hnodup. }
  split; [exact H1|]. exact (addProvisioners_NoDup _ _ _ _ H1 Hadd).
Qed.

(** ** The repository is always set *)

(** X7. A construct that was built has its field [helmRepository] set,
    although the class declares it optional, and the Helm chart has the
    same repository.  It is [props.helmRepository] when that is defined;
    otherwise it is one of the two chart repositories, the old one only
    for a defined version that [semver.lt] puts below '0.17.0'. *)
Theorem helmRepository_is_always_set {S : Semver} (scope : Path) (id : string)
        (props : KarpenterProps.t) (app : App) (k : Karpenter.t) (app' : App) :
  Karpenter.constructor scope id props app = Ok (k, app') ->
  exists r options,
    Karpenter.helmRepository k = Some r
    /\ findConstruct (Karpenter.chart k) (constructs app') =
         Some (HelmChart (KarpenterProps.cluster props) options)
    /\ HelmChartOptions.repository options = Some r
    /\ (KarpenterProps.helmRepository props = Some r
        \/ (KarpenterProps.helmRepository props = None
            /\ r = "oci://public.ecr.aws/karpenter"
            /\ (KarpenterProps.version props = None
                \/ exists v, KarpenterProps.version props = Some v
                             /\ semver_lt v "0.17.0" = Ok false))
        \/ (KarpenterProps.helmRepository props = None
            /\ r = "https://charts.karpenter.sh"
            /\ exists v, KarpenterProps.version props = Some v
                         /\ semver_lt v "0.17.0" = Ok true)).
Proof.
  intros Hnew. apply constructor_Ok_inv in Hnew.
  destruct Hnew as (repo & Hrepo & Hids & -> & ->).
  destruct (constructed_chart scope id props repo app Hids) as (_ & _ & Hchart).
  exists repo. eexists. split; [reflexivity|]. split; [exact Hchart|].
  split; [reflexivity|].
  unfold Karpenter.setHelmRepository in Hrepo.
  destruct (KarpenterProps.helmRepository props) as [r|].
  - injection Hrepo as <-. now left.
  - right. destruct (KarpenterProps.version props) as [v|].
    + destruct (semver_lt v "0.17.0") as [[|]|e] eqn:Hlt; try discriminate Hrepo;
        injection Hrepo as <-.
      * right. repeat split. now exists v.
      * left. repeat split. right. now exists v.
    + injection Hrepo as <-. left. repeat split. now left.
Qed.

(** ** References between the declared resources *)

Lemma constructed_own (scope : Path) (id : string) (props : KarpenterProps.t)
      (repo : string) (app : App) :
  idsAvailable scope id (KarpenterProps.cluster props) app = true ->
  let this := scope ++ [sanitizeId id] in
  let cluster := KarpenterProps.cluster props in
  let constructs' := constructs (afterConstruction scope id props repo app) in
  findConstruct (this ++ ["NodeRole"]) constructs' = Some (Role Karpenter.nodeRoleProps)
  /\ findConstruct (this ++ ["InstanceProfile"]) constructs' =
       Some (CfnInstanceProfile
               (Karpenter.instanceProfileProps cluster id (this ++ ["NodeRole"])))
  /\ findConstruct (this ++ ["ControllerPolicy"]) constructs' =
       Some (Policy (Karpenter.controllerPolicyProps (this ++ ["NodeRole"])
                       (cluster ++ ["karpenter"]))).
Proof.
  intros Hids. unfold idsAvailable, isFree in Hids. simpl in Hids.
  repeat match goal with
         | E : _ && _ = true |- _ => apply andb_true_iff in E; destruct E
         | E : true = true |- _ => clear E
         | E : negb _ = true |- _ => apply negb_true_iff in E
         | E : match ?x with Some _ => false | None => true end = true |- _ =>
             destruct x eqn:?; [discriminate E | clear E]
         end.
  unfold afterConstruction, declaredConstructs. simpl.
  rewrite !findConstruct_app. simpl.
  repeat match goal with
         | E : findConstruct ?p ?cs = None |- context [findConstruct ?p ?cs] => rewrite E
         | |- context [pathEqb ?a ?a] => rewrite (pathEqb_refl a)
         | |- context [pathEqb ?a (?a ++ [?x])] =>
             rewrite (pathEqb_neq a (a ++ [x])) by (apply not_eq_sym, snoc_neq_self)
         | |- context [pathEqb (?a ++ [?x]) (?b ++ [?y])] =>
             rewrite (pathEqb_neq (a ++ [x]) (b ++ [y]))
               by (apply snoc_neq_last; discriminate)
         end.
  repeat split; reflexivity.
Qed.

(** X8. No reference of a construction that returned dangles.  The
    instance profile and the aws-auth mapping name the node role that was
    declared; the controller policy is attached to the role of the service
    account that was declared for the cluster; and the values of the Helm
    chart name that service account and the ARN of its role, the cluster,
    and the instance profile that was declared, and tell the chart not to
    create a service account of its own. *)
Theorem declared_references_resolve {S : Semver} (scope : Path) (id : string)
        (props : KarpenterProps.t) (app : App) (k : Karpenter.t) (app' : App) :
  Karpenter.constructor scope id props app = Ok (k, app') ->
  let cluster := KarpenterProps.cluster props in
  let serviceAccount := cluster ++ ["karpenter"] in
  let instanceProfile := Karpenter.node k ++ ["InstanceProfile"] in
  exists role profile account policy options values accountValues annotations aws,
    findConstruct (Karpenter.nodeRole k) (constructs app') = Some (Role role)
    /\ findConstruct instanceProfile (constructs app') = Some (CfnInstanceProfile profile)
    /\ CfnInstanceProfileProps.roles profile = [[Tok (roleName (RoleAt (Karpenter.nodeRole k)))]]
    /\ In (cluster, RoleAt (Karpenter.nodeRole k), Karpenter.nodeRoleMapping) (awsAuth app')
    /\ findConstruct serviceAccount (constructs app') = Some (ServiceAccount cluster account)
    /\ findConstruct (Karpenter.node k ++ ["ControllerPolicy"]) (constructs app') =
         Some (Policy policy)
    /\ PolicyProps.roles policy = [RoleOfServiceAccount serviceAccount]
    /\ findConstruct (Karpenter.chart k) (constructs app') = Some (HelmChart cluster options)
    /\ HelmChartOptions.values options = Some values
    /\ getField "serviceAccount" values = Some accountValues
    /\ getField "create" accountValues = Some (JBool false)
    /\ getField "name" accountValues =
         Some (JString [Tok (serviceAccountName serviceAccount)])
    /\ getField "annotations" accountValues = Some annotations
    /\ getField "eks.amazonaws.com/role-arn" annotations =
         Some (JString [Tok (roleArn (RoleOfServiceAccount serviceAccount))])
    /\ getField "clusterName" values = Some (JString [Tok (clusterName cluster)])
    /\ getField "clusterEndpoint" values = Some (JString [Tok (clusterEndpoint cluster)])
    /\ getField "aws" values = Some aws
    /\ getField "defaultInstanceProfile" aws = Some (JString [Tok (ref instanceProfile)]).
Proof.
  intros Hnew cluster serviceAccount instanceProfile.
  apply constructor_Ok_inv in Hnew.
  destruct Hnew as (repo & _ & Hids & -> & ->).
  destruct (constructed_chart scope id props repo app Hids) as (_ & Hsa & Hchart).
  destruct (constructed_own scope id props repo app Hids) as (Hrole & Hprofile & Hpolicy).
  eexists _, _, _, _, _, _, _, _, _.
  split; [exact Hrole|]. split; [exact Hprofile|]. split; [reflexivity|].
  split; [apply in_or_app; right; left; reflexivity|].
  split; [exact Hsa|]. split; [exact Hpolicy|]. split; [reflexivity|].
  split; [exact Hchart|].
  repeat split; reflexivity.
Qed.

(** ** Constructs for different clusters *)

Lemma filter_declaredConstructs_other (scope : Path) (id : string)
      (props : KarpenterProps.t) (repo : string) (other : Path) :
  KarpenterProps.cluster props <> other ->
  filter (fun pr => targets other (snd pr)) (declaredConstructs scope id props repo) = [].
Proof.
  intros Hother. unfold declaredConstructs, targets. cbn [filter snd targetCluster].
  now rewrite (pathEqb_neq _ _ Hother).
Qed.

Ltac paths_differ :=
  let Heq := fresh "Heq" in
  let Hscope := fresh "Hscope" in
  let Hname := fresh "Hname" in
  intros Heq;
  apply app_inj_tail in Heq; destruct Heq as [Hscope Hname];
  first [ discriminate Hname
        | congruence
        | apply app_inj_tail in Hscope; destruct Hscope; congruence ].

(** X10. Constructs in different scopes for different clusters do not
    disturb each other.  When a construction has returned, a second one in
    another scope, for another cluster, that would have returned on the
    app before the first, returns after it with the same construct,
    provided neither scope is the cluster or the construct of the other;
    and it leaves the Kubernetes resources and the role mappings of the
    first cluster as they were. *)
Theorem constructs_for_two_clusters_coexist {S S' : Semver} (scope1 : Path)
        (id1 : string) (props1 : KarpenterProps.t) (app : App) (k1 : Karpenter.t)
        (app1 : App) (scope2 : Path) (id2 : string) (props2 : KarpenterProps.t)
        (k2 : Karpenter.t) (alone : App) :
  Karpenter.constructor (semverModule := S) scope1 id1 props1 app = Ok (k1, app1) ->
  Karpenter.constructor (semverModule := S') scope2 id2 props2 app = Ok (k2, alone) ->
  scope2 <> scope1 ->
  KarpenterProps.cluster props2 <> KarpenterProps.cluster props1 ->
  scope1 <> KarpenterProps.cluster props2 ->
  scope2 <> KarpenterProps.cluster props1 ->
  scope1 <> Karpenter.node k2 ->
  scope2 <> Karpenter.node k1 ->
  exists app2,
    Karpenter.constructor (semverModule := S') scope2 id2 props2 app1 = Ok (k2, app2)
    /\ kubernetesResourcesOf (KarpenterProps.cluster props1) app2 =
       kubernetesResourcesOf (KarpenterProps.cluster props1) app1
    /\ roleMappingsOf (KarpenterProps.cluster props1) app2 =
       roleMappingsOf (KarpenterProps.cluster props1) app1
    /\ kubernetesResourcesOf (KarpenterProps.cluster props2) app2 =
       kubernetesResourcesOf (KarpenterProps.cluster props2) alone.
Proof.
  intros Hnew Halone Hscope Hcluster Hscope1 Hscope2 Hnode1 Hnode2.
  apply constructor_Ok_inv in Hnew. destruct Hnew as (repo1 & _ & _ & -> & ->).
  apply constructor_Ok_inv in Halone. destruct Halone as (repo2 & Hrepo & Hids & -> & ->).
  cbn [constructed Karpenter.node] in Hnode1, Hnode2.
  exists (afterConstruction scope2 id2 props2 repo2
            (afterConstruction scope1 id1 props1 repo1 app)).
  split; [|split; [|split]].
  - apply constructor_Ok_intro; [exact Hrepo|].
    unfold idsAvailable, isFree in *. simpl in Hids.
    repeat match goal with
           | E : _ && _ = true |- _ => apply andb_true_iff in E; destruct E
           | E : true = true |- _ => clear E
           | E : match ?x with Some _ => false | None => true end = true |- _ =>
               destruct x eqn:?; [discriminate E | clear E]
           end.
    unfold afterConstruction, declaredConstructs. simpl.
    rewrite !findConstruct_app. simpl.
    repeat match goal with
           | E : findConstruct ?p ?cs = None |- context [findConstruct ?p ?cs] => rewrite E
           | E : negb ?b = true |- context [negb ?b] => rewrite E
           | |- context [pathEqb ?a ?b] => rewrite (pathEqb_neq a b) by paths_differ
           end.
    reflexivity.
  - set (app1 := afterConstruction scope1 id1 props1 repo1 app).
    unfold kubernetesResourcesOf, afterConstruction. cbn [constructs].
    rewrite !filter_app.
    unfold declaredConstructs, targets. cbn [filter snd targetCluster].
    rewrite (pathEqb_neq _ _ Hcluster). now rewrite !app_nil_r.
  - set (app1 := afterConstruction scope1 id1 props1 repo1 app).
    unfold roleMappingsOf, afterConstruction. cbn [awsAuth].
    rewrite !filter_app. cbn [filter fst].
    rewrite (pathEqb_neq _ _ Hcluster). now rewrite !app_nil_r.
  - unfold kubernetesResourcesOf, afterConstruction. cbn [constructs].
    rewrite !filter_app.
    rewrite (filter_declaredConstructs_other scope1 id1 props1 repo1)
      by (now apply not_eq_sym).
    now rewrite app_nil_r.
Qed.


(** ** The further properties at concrete inputs *)

Lemma provisioner_id_namespace_is_taken_witness :
  let props := testProps None None None in
  let calls := [("default", JObject [])] in
  let app2 := afterProvisioner defaultKarpenter "default" (JObject []) defaultApp in
  Karpenter.constructor (semverModule := node_semver) testScope "Karpenter" props testApp
  = Ok (defaultKarpenter, defaultApp)
  /\ addProvisioners defaultKarpenter calls defaultApp = Ok (tt, app2)
  /\ Karpenter.addProvisioner defaultKarpenter "namespace" (JObject []) app2
     = Throw (DuplicateNameError (KarpenterProps.cluster props) "manifest-namespace").
Proof.
  intros props calls app2.
  assert (Hnew : Karpenter.constructor (semverModule := node_semver) testScope "Karpenter"
                   props testApp = Ok (defaultKarpenter, defaultApp))
    by (vm_compute; reflexivity).
  assert (Hadd : addProvisioners defaultKarpenter calls defaultApp = Ok (tt, app2))
    by (vm_compute; reflexivity).
  split; [exact Hnew|]. split; [exact Hadd|].
  exact (provisioner_id_namespace_is_taken (S := node_semver) testScope "Karpenter" props
           testApp defaultKarpenter defaultApp calls app2 (JObject []) Hnew Hadd).
Defined.

Lemma second_construction_for_cluster_throws_witness :
  let props := testProps None None None in
  let props' := testProps (Some "other") None None in
  Karpenter.constructor (semverModule := node_semver) testScope "Karpenter" props testApp
  = Ok (defaultKarpenter, defaultApp)
  /\ addProvisioners defaultKarpenter [] defaultApp = Ok (tt, defaultApp)
  /\ KarpenterProps.cluster props' = KarpenterProps.cluster props
  /\ forall k' app',
       Karpenter.constructor (semverModule := node_semver) testScope "Second" props'
         defaultApp <> Ok (k', app').
Proof.
  intros props props'.
  assert (Hnew : Karpenter.constructor (semverModule := node_semver) testScope "Karpenter"
                   props testApp = Ok (defaultKarpenter, defaultApp))
    by (vm_compute; reflexivity).
  assert (Hadd : addProvisioners defaultKarpenter [] defaultApp = Ok (tt, defaultApp))
    by reflexivity.
  assert (Hcluster : KarpenterProps.cluster props' = KarpenterProps.cluster props)
    by reflexivity.
  split; [exact Hnew|]. split; [exact Hadd|]. split; [exact Hcluster|].
  exact (second_construction_for_cluster_throws (S := node_semver) (S' := node_semver)
           testScope "Karpenter" props testApp defaultKarpenter defaultApp [] defaultApp
           testScope "Second" props' Hnew Hadd Hcluster).
Defined.

Lemma construct_named_like_its_resources_throws_witness :
  let props := testProps None None None in
  testCluster = KarpenterProps.cluster props
  /\ In (sanitizeId "karpenter") clusterNames
  /\ forall k app',
       Karpenter.constructor (semverModule := node_semver) testCluster "karpenter" props
         testApp <> Ok (k, app').
Proof.
  intros props.
  assert (Hscope : testCluster = KarpenterProps.cluster props) by reflexivity.
  assert (Hname : In (sanitizeId "karpenter") clusterNames) by (right; left; reflexivity).
  split; [exact Hscope|]. split; [exact Hname|].
  exact (construct_named_like_its_resources_throws (S := node_semver) testCluster
           "karpenter" props testApp Hscope Hname).
Defined.

Lemma constructor_checks_its_id_first_witness :
  let props := testProps None (Some "latest") None in
  Karpenter.constructor (semverModule := node_semver) testScope "" props testApp
  = Throw EmptyIdError
  /\ Karpenter.constructor (semverModule := node_semver) [] "test-stack" props testApp
     = Throw (DuplicateNameError [] (sanitizeId "test-stack")).
Proof.
  intros props. split.
  - exact (proj1 (constructor_checks_its_id_first (S := node_semver) testScope "" props
                    testApp) eq_refl).
  - assert (Hid : "test-stack" <> "") by discriminate.
    assert (Htaken : findConstruct ([] ++ [sanitizeId "test-stack"]) (constructs testApp)
                     = Some (Other "Stack"))
      by (vm_compute; reflexivity).
    exact (proj2 (constructor_checks_its_id_first (S := node_semver) [] "test-stack" props
                    testApp) Hid (Other "Stack") Htaken).
Defined.

Lemma construct_paths_stay_unique_witness :
  let props := testProps None None None in
  let calls := [("default", JObject [])] in
  let app2 := afterProvisioner defaultKarpenter "default" (JObject []) defaultApp in
  NoDup (map fst (constructs testApp))
  /\ Karpenter.constructor (semverModule := node_semver) testScope "Karpenter" props testApp
     = Ok (defaultKarpenter, defaultApp)
  /\ addProvisioners defaultKarpenter calls defaultApp = Ok (tt, app2)
  /\ NoDup (map fst (constructs app2)).
Proof.
  intros props calls app2.
  assert (Hnodup : NoDup (map fst (constructs testApp))).
  { simpl. constructor; [intros [H|[]]; discriminate H|].
    constructor; [intros []|constructor]. }
  assert (Hnew : Karpenter.constructor (semverModule := node_semver) testScope "Karpenter"
                   props testApp = Ok (defaultKarpenter, defaultApp))
    by (vm_compute; reflexivity).
  assert (Hadd : addProvisioners defaultKarpenter calls defaultApp = Ok (tt, app2))
    by (vm_compute; reflexivity).
  split; [exact Hnodup|]. split; [exact Hnew|]. split; [exact Hadd|].
  exact (proj2 (construct_paths_stay_unique (S := node_semver) testScope "Karpenter" props
                  testApp defaultKarpenter defaultApp calls app2 Hnodup Hnew Hadd)).
Defined.

Lemma helmRepository_is_always_set_witness :
  let props := testProps None None None in
  Karpenter.constructor (semverModule := node_semver) testScope "Karpenter" props testApp
  = Ok (defaultKarpenter, defaultApp)
  /\ exists r, Karpenter.helmRepository defaultKarpenter = Some r.
Proof.
  intros props.
  assert (Hnew : Karpenter.constructor (semverModule := node_semver) testScope "Karpenter"
                   props testApp = Ok (defaultKarpenter, defaultApp))
    by (vm_compute; reflexivity).
  split; [exact Hnew|].
  pose proof (helmRepository_is_always_set (S := node_semver) testScope "Karpenter" props
                testApp defaultKarpenter defaultApp Hnew) as H.
  destruct H as (r & options & Hr & _).
  exists r. exact Hr.
Defined.

Lemma declared_references_resolve_witness :
  let props := testProps None None None in
  Karpenter.constructor (semverModule := node_semver) testScope "Karpenter" props testApp
  = Ok (defaultKarpenter, defaultApp)
  /\ exists role profile,
       findConstruct (Karpenter.nodeRole defaultKarpenter) (constructs defaultApp)
       = Some (Role role)
       /\ findConstruct (Karpenter.node defaultKarpenter ++ ["InstanceProfile"])
            (constructs defaultApp) = Some (CfnInstanceProfile profile)
       /\ CfnInstanceProfileProps.roles profile
          = [[Tok (roleName (RoleAt (Karpenter.nodeRole defaultKarpenter)))]].
Proof.
  intros props.
  assert (Hnew : Karpenter.constructor (semverModule := node_semver) testScope "Karpenter"
                   props testApp = Ok (defaultKarpenter, defaultApp))
    by (vm_compute; reflexivity).
  split; [exact Hnew|].
  pose proof (declared_references_resolve (S := node_semver) testScope "Karpenter" props
                testApp defaultKarpenter defaultApp Hnew) as H.
  destruct H as (role & profile & account & policy & options & values & accountValues
                 & annotations & aws & Hrole & Hprofile & Hroles & _).
  exists role, profile. split; [exact Hrole|]. split; [exact Hprofile | exact Hroles].
Defined.

Lemma constructs_for_two_clusters_coexist_witness :
  let props1 := testProps None None None in
  let props2 := {| KarpenterProps.cluster := otherCluster;
                   KarpenterProps.namespace := None;
                   KarpenterProps.version := None;
                   KarpenterProps.helmRepository := None |} in
  let app1 := afterConstruction testScope "Karpenter" props1
                "oci://public.ecr.aws/karpenter" twoStackApp in
  let k2 := constructed otherScope "Karpenter" props2 "oci://public.ecr.aws/karpenter" in
  let alone := afterConstruction otherScope "Karpenter" props2
                 "oci://public.ecr.aws/karpenter" twoStackApp in
  Karpenter.constructor (semverModule := node_semver) testScope "Karpenter" props1
    twoStackApp = Ok (defaultKarpenter, app1)
  /\ Karpenter.constructor (semverModule := node_semver) otherScope "Karpenter" props2
       twoStackApp = Ok (k2, alone)
  /\ exists app2,
       Karpenter.constructor (semverModule := node_semver) otherScope "Karpenter" props2 app1
       = Ok (k2, app2).
Proof.
  intros props1 props2 app1 k2 alone.
  assert (Hnew : Karpenter.constructor (semverModule := node_semver) testScope "Karpenter"
                   props1 twoStackApp = Ok (defaultKarpenter, app1))
    by (vm_compute; reflexivity).
  assert (Halone : Karpenter.constructor (semverModule := node_semver) otherScope
                     "Karpenter" props2 twoStackApp = Ok (k2, alone))
    by (vm_compute; reflexivity).
  assert (Hscope : otherScope <> testScope) by discriminate.
  assert (Hcluster : KarpenterProps.cluster props2 <> KarpenterProps.cluster props1)
    by discriminate.
  assert (Hscope1 : testScope <> KarpenterProps.cluster props2) by discriminate.
  assert (Hscope2 : otherScope <> KarpenterProps.cluster props1) by discriminate.
  assert (Hnode1 : testScope <> Karpenter.node k2) by discriminate.
  assert (Hnode2 : otherScope <> Karpenter.node defaultKarpenter) by discriminate.
  split; [exact Hnew|]. split; [exact Halone|].
  pose proof (constructs_for_two_clusters_coexist (S := node_semver) (S' := node_semver)
                testScope "Karpenter" props1 twoStackApp defaultKarpenter app1
                otherScope "Karpenter" props2 k2 alone
                Hnew Halone Hscope Hcluster Hscope1 Hscope2 Hnode1 Hnode2) as H.
  destruct H as (app2 & Hsecond & _).
  exists app2. exact Hsecond.
Defined.
